(** * LettuceDetect: span reconstruction and evaluation, verified

    A shallow embedding of the hallucination-span builder and of the
    evaluation functions of LettuceDetect
    ([lettucedetect/models/inference.py], [lettucedetect/models/evaluator.py],
    [scripts/chatgpt_baseline.py], [scripts/ragas_baseline.py]).

    Modelling conventions
    - Python [int] is [Z]; a Python [str] is a [string]; a Python list is a
      [list]; a dict with fixed keys is a record.
    - Probabilities and metric values are Python floats in the source.  They
      are only compared, maximised and divided, so they are modelled as
      rationals [Q]; rounding is not modelled.
    - A Python call that may raise returns [result A]: [Ok v] for a normal
      return, [Err e] for a raised exception [e].  Exceptions propagate
      through [bind] unless the source catches them. *)

From Stdlib Require Import ZArith QArith Qminmax Bool List String Ascii Lia Sorted.
Import ListNotations.
Open Scope Z_scope.

Set Implicit Arguments.
Set Warnings "-register-all".

(* ===================================================================== *)
(** ** Python preliminaries *)
(* ===================================================================== *)

Module Py.

(** The exceptions that the modelled code can raise or catch. *)
Inductive exn : Type :=
| ValueError (msg : string)
| AttributeError (msg : string)
| KeyError (key : string)
| TypeError (msg : string)
| JSONDecodeError
| CollaboratorFailure (msg : string).

Inductive result (A : Type) : Type :=
| Ok (v : A)
| Err (e : exn).
Arguments Ok {A} v.
Arguments Err {A} e.

Definition bind {A B : Type} (c : result A) (k : A -> result B) : result B :=
  match c with
  | Ok v => k v
  | Err e => Err e
  end.

(** [for x in xs: acc = body(acc, x)] where the body may raise. *)
Fixpoint foldM {A S : Type} (body : S -> A -> result S) (xs : list A) (s : S)
  : result S :=
  match xs with
  | [] => Ok s
  | x :: xs' => bind (body s x) (foldM body xs')
  end.

(** [[f(x) for x in xs]] where [f] may raise. *)
Fixpoint mapM {A B : Type} (f : A -> result B) (xs : list A) : result (list B) :=
  match xs with
  | [] => Ok []
  | x :: xs' => bind (f x) (fun y => bind (mapM f xs') (fun ys => Ok (y :: ys)))
  end.

(** Index normalisation of a slice bound for a sequence of length [n]. *)
Definition clamp_index (n i : Z) : Z :=
  if i <? 0 then Z.max (i + n) 0 else Z.min i n.

(** [s[a:b]] on a string. *)
Definition slice (s : string) (a b : Z) : string :=
  let n := Z.of_nat (String.length s) in
  let lo := clamp_index n a in
  let hi := clamp_index n b in
  substring (Z.to_nat lo) (Z.to_nat (hi - lo)) s.

(** [xs[a:b]] on a list. *)
Definition slice_list {A : Type} (xs : list A) (a b : Z) : list A :=
  let n := Z.of_nat (List.length xs) in
  let lo := clamp_index n a in
  let hi := clamp_index n b in
  firstn (Z.to_nat (hi - lo)) (skipn (Z.to_nat lo) xs).

(** [x > y] on floats. *)
Definition Qgtb (x y : Q) : bool := negb (Qle_bool x y).

(** The builtin [max(a, b)]: the first argument unless the second is
    strictly greater. *)
Definition max (a b : Q) : Q := if Qgtb b a then b else a.

(** [range(start, stop, step)]; a zero step raises [ValueError]. *)
Definition range (start stop step : Z) : result (list Z) :=
  if step =? 0 then Err (ValueError "range() arg 3 must not be zero")
  else
    let len :=
      if 0 <? step
      then (if start <? stop then (stop - start - 1) / step + 1 else 0)
      else (if stop <? start then (start - stop - 1) / (- step) + 1 else 0) in
    Ok (map (fun k => start + Z.of_nat k * step) (seq 0 (Z.to_nat len))).

(** Truthiness of a list: [if xs]. *)
Definition truthy {A : Type} (xs : list A) : bool :=
  match xs with [] => false | _ :: _ => true end.

End Py.

Import Py.

Declare Scope py_scope.
Notation "x <- c ;; k" := (bind c (fun x => k))
  (at level 61, c at next level, right associativity) : py_scope.
Open Scope py_scope.

(* ===================================================================== *)
(** ** Data model *)
(* ===================================================================== *)

(** A predicted span: the dict [{"start", "end", "confidence", "text"}].
    The LLM detector emits no ["confidence"] key. *)
Record span : Type := mkSpan {
  span_start : Z;
  span_end : Z;
  span_confidence : option Q;
  span_text : string
}.

(** A gold annotation of a sample: [{"start", "end", ...}]. *)
Record gold_span : Type := mkGold {
  gold_start : Z;
  gold_end : Z
}.

(* ===================================================================== *)
(** ** [TransformerDetector._predict], the ["spans"] branch *)
(* ===================================================================== *)

Module SpanBuilder.

(** One sequence position after tokenisation and inference:
    [offsets[i]], [argmax(logits)[i]] and [softmax(logits)[i, 1]],
    with the decoded token text. *)
Record position : Type := mkPosition {
  pos_token : string;
  pos_start : Z;
  pos_end : Z;
  pos_argmax : Z;
  pos_prob1 : Q
}.

(** What the tokenizer and the classifier hand back for one example. *)
Record encoded : Type := mkEncoded {
  positions : list position;
  answer_start_token : nat
}.

Definition IGNORE : Z := -100.

(** [labels = full_like(input_ids, -100); labels[answer_start_token:] = 0]. *)
Definition make_labels (n ast : nat) : list Z :=
  map (fun i => if (i <? ast)%nat then IGNORE else 0) (seq 0 n).

(** One row of the loop: [labels[i]], [offsets[i]], [token_preds[i]],
    [probabilities[i, 1]]. *)
Record token : Type := mkToken {
  label : Z;
  token_start : Z;
  token_end : Z;
  token_pred : Z;
  prob1 : Q;
  token_text : string
}.

(** [token_preds = where(labels == -100, labels, argmax)]. *)
Definition row (lbl : Z) (p : position) : token :=
  {| label := lbl;
     token_start := pos_start p;
     token_end := pos_end p;
     token_pred := if lbl =? IGNORE then lbl else pos_argmax p;
     prob1 := pos_prob1 p;
     token_text := pos_token p |}.

Definition rows (e : encoded) : list token :=
  map (fun lp => row (fst lp) (snd lp))
      (combine (make_labels (List.length (positions e)) (answer_start_token e))
               (positions e)).

(** [current_span]: the dict under construction, before ["text"] is set. *)
Record open_span : Type := mkOpen {
  os_start : Z;
  os_end : Z;
  os_confidence : Q
}.

(** The two loop variables [spans] and [current_span]. *)
Record builder : Type := mkBuilder {
  spans : list span;
  current_span : option open_span
}.

Definition init : builder := {| spans := []; current_span := None |}.

(** [current_span["text"] = answer[start:end]]. *)
Definition materialize (answer : string) (cs : open_span) : span :=
  {| span_start := os_start cs;
     span_end := os_end cs;
     span_confidence := Some (os_confidence cs);
     span_text := slice answer (os_start cs) (os_end cs) |}.

(** The tokens the loop does not [continue] past. *)
Definition eligible (t : token) : bool :=
  negb (label t =? IGNORE) && negb (token_start t =? token_end t).

(** The body of [for i in range(answer_start_token, token_preds.size(0))]. *)
Definition span_step (answer : string) (answer_char_offset : Z)
    (st : builder) (t : token) : builder :=
  if label t =? IGNORE then st
  else if token_start t =? token_end t then st
  else
    let rel_start := token_start t - answer_char_offset in
    let rel_end := token_end t - answer_char_offset in
    let is_hallucination := token_pred t =? 1 in
    let confidence := if is_hallucination then prob1 t else 0%Q in
    if is_hallucination then
      match current_span st with
      | None =>
          {| spans := spans st;
             current_span := Some {| os_start := rel_start;
                                     os_end := rel_end;
                                     os_confidence := confidence |} |}
      | Some cs =>
          {| spans := spans st;
             current_span := Some {| os_start := os_start cs;
                                     os_end := rel_end;
                                     os_confidence :=
                                       Py.max (os_confidence cs) confidence |} |}
      end
    else
      match current_span st with
      | Some cs =>
          {| spans := spans st ++ [materialize answer cs];
             current_span := None |}
      | None => st
      end.

(** The loop over a token stream, from a given state. *)
Definition run (answer : string) (answer_char_offset : Z)
    (toks : list token) (st : builder) : builder :=
  fold_left (span_step answer answer_char_offset) toks st.

(** "Append any span still in progress." *)
Definition finish (answer : string) (st : builder) : list span :=
  match current_span st with
  | Some cs => spans st ++ [materialize answer cs]
  | None => spans st
  end.

(** The span builder on a token stream. *)
Definition build_spans (answer : string) (answer_char_offset : Z)
    (toks : list token) : list span :=
  finish answer (run answer answer_char_offset toks init).

(** [offsets[answer_start_token][0]] if that index exists, else [0]. *)
Definition answer_char_offset (e : encoded) : Z :=
  match nth_error (positions e) (answer_start_token e) with
  | Some p => pos_start p
  | None => 0
  end.

(** The ["spans"] branch on the output of tokenizer and classifier. *)
Definition predict_spans (answer : string) (e : encoded) : list span :=
  build_spans answer (answer_char_offset e)
              (skipn (answer_start_token e) (rows e)).

(** The ["tokens"] branch: one dict per position whose label is not
    [-100]. *)
Record token_prob : Type := mkTokenProb {
  tp_token : string;
  tp_pred : Z;
  tp_prob : Q
}.

Definition predict_tokens (e : encoded) : list token_prob :=
  map (fun t => {| tp_token := token_text t;
                   tp_pred := token_pred t;
                   tp_prob := prob1 t |})
      (filter (fun t => negb (label t =? IGNORE)) (rows e)).



(** The boundaries of a list of spans, of the open span, and of the
    eligible tokens still to come, relative to the answer. *)
Definition bounds (l : list span) : list Z :=
  flat_map (fun s => [span_start s; span_end s]) l.




(** A token the loop treats as hallucinated: kept and of class 1. *)
Definition hallucinated_token (t : token) : bool :=
  eligible t && (token_pred t =? 1).








End SpanBuilder.

(* ===================================================================== *)
(** ** [LLMDetector._create_labels] and [scripts/chatgpt_baseline.py] *)
(* ===================================================================== *)

Module LLMLabels.

(** The Python values [json.loads] can return.  A dict keeps its items in
    insertion order with distinct keys. *)
Inductive pyval : Type :=
| PNone
| PBool (b : bool)
| PInt (z : Z)
| PFloat (q : Q)
| PStr (s : string)
| PList (l : list pyval)
| PDict (kvs : list (string * pyval)).

(** The shortest prefix of [s] that ends with a closing brace: what
    [.*?\}] consumes under [re.DOTALL]. *)
Fixpoint upto_close (s : string) : option string :=
  match s with
  | EmptyString => None
  | String c s' =>
      if Ascii.eqb c "}"%char then Some (String c EmptyString)
      else option_map (String c) (upto_close s')
  end.

(** [re.search(r"\{.*?\}", s, re.DOTALL)]: the leftmost opening brace from
    which a closing brace can be reached; [None] when there is no match.
    The result is the matched text, [group(0)]. *)
Fixpoint search_braces (s : string) : option string :=
  match s with
  | EmptyString => None
  | String c s' =>
      if Ascii.eqb c "{"%char then
        match upto_close s' with
        | Some m => Some (String c m)
        | None => search_braces s'
        end
      else search_braces s'
  end.

(** [re.search(re.escape(hal), answer)]: the leftmost occurrence of the
    literal [hal]; [start()] is its index and [end()] is [start() + len(hal)]. *)
Definition search_literal (hal answer : string) : option nat :=
  index 0 hal answer.

(** [d[key]] on a dict. *)
Fixpoint dict_get (kvs : list (string * pyval)) (key : string) : option pyval :=
  match kvs with
  | [] => None
  | (k, v) :: kvs' => if String.eqb k key then Some v else dict_get kvs' key
  end.

(** [v[key]] for a string key. *)
Definition getitem (v : pyval) (key : string) : result pyval :=
  match v with
  | PDict kvs =>
      match dict_get kvs key with
      | Some x => Ok x
      | None => Err (KeyError key)
      end
  | PStr _ => Err (TypeError "string indices must be integers")
  | PList _ => Err (TypeError "list indices must be integers or slices")
  | _ => Err (TypeError "object is not subscriptable")
  end.

Fixpoint chars (s : string) : list pyval :=
  match s with
  | EmptyString => []
  | String c s' => PStr (String c EmptyString) :: chars s'
  end.

(** The items [for hal in v] visits. *)
Definition iterate (v : pyval) : result (list pyval) :=
  match v with
  | PList l => Ok l
  | PStr s => Ok (chars s)
  | PDict kvs => Ok (map (fun kv => PStr (fst kv)) kvs)
  | _ => Err (TypeError "object is not iterable")
  end.

(** The body of [for hal in ...]: search the answer for [hal] and append a
    label when it is found. *)
Definition label_step (answer : string) (labels : list span) (hal : pyval)
  : result (list span) :=
  match hal with
  | PStr h =>
      match search_literal h answer with
      | Some m =>
          Ok (labels ++ [ {| span_start := Z.of_nat m;
                             span_end := Z.of_nat (m + String.length h);
                             span_confidence := None;
                             span_text := h |} ])
      | None => Ok labels
      end
  | _ => Err (TypeError "expected str")
  end.

(** [create_labels] of [chatgpt_baseline.py], and the loop of
    [_create_labels]. *)
Definition create_labels (answer : string) (chat_response : pyval)
  : result (list span) :=
  hals <- getitem chat_response "hallucination list" ;;
  items <- iterate hals ;;
  foldM (label_step answer) items [].

(** The label of one hallucination string, if it occurs in the answer. *)
Definition label_of (answer h : string) : list span :=
  match search_literal h answer with
  | Some m => [ {| span_start := Z.of_nat m;
                   span_end := Z.of_nat (m + String.length h);
                   span_confidence := None;
                   span_text := h |} ]
  | None => []
  end.

Section WithJson.

(** [json.loads]: raises [JSONDecodeError] on text that is not JSON. *)
Variable json_loads : string -> result pyval.

(** [LLMDetector._create_labels].  Only [json.JSONDecodeError] is caught;
    [match_dict.group(0)] on [None] raises [AttributeError] inside the
    [try]. *)
Definition _create_labels (llm_content answer : string) : result (list span) :=
  let match_dict := search_braces llm_content in
  let attempt :=
    match match_dict with
    | None => Err (AttributeError "'NoneType' object has no attribute 'group'")
    | Some hal_dict => json_loads hal_dict
    end in
  match attempt with
  | Err JSONDecodeError => Ok []
  | Err e => Err e
  | Ok hal_dict => create_labels answer hal_dict
  end.

(** The label computation of [create_sample_baseline]: on a
    [JSONDecodeError] the handler rebinds [chat_response], and
    [create_labels] is then called on [extracted_json], which still holds
    the matched text. *)
Definition create_sample_baseline_labels (chat_response answer : string)
  : result (list span) :=
  match search_braces chat_response with
  | None => Err (AttributeError "'NoneType' object has no attribute 'group'")
  | Some extracted_json =>
      match json_loads extracted_json with
      | Ok v => create_labels answer v
      | Err JSONDecodeError => create_labels answer (PStr extracted_json)
      | Err e => Err e
      end
  end.

End WithJson.

(** [c in s] for a character. *)
Fixpoint contains_char (c : ascii) (s : string) : bool :=
  match s with
  | EmptyString => false
  | String d s' => Ascii.eqb d c || contains_char c s'
  end.

(** A span that lies inside the answer and reproduces its text. *)
Definition label_in_bounds (answer : string) (s : span) : Prop :=
  0 <= span_start s <= span_end s
  /\ span_end s <= Z.of_nat (String.length answer)
  /\ span_confidence s = None
  /\ slice answer (span_start s) (span_end s) = span_text s.

(** [isinstance(v, str)]. *)
Definition is_str (v : pyval) : bool :=
  match v with PStr _ => true | _ => false end.

End LLMLabels.

(* ===================================================================== *)
(** ** Detectors and the facade *)
(* ===================================================================== *)

Module Detectors.

Import SpanBuilder LLMLabels.

(** What a prediction call returns: a list of token dicts or of span
    dicts. *)
Inductive prediction : Type :=
| Tokens (l : list token_prob)
| Spans (l : list span).

(** A detector object, by the methods the callers use.  [A] is the type of
    the answers it is given.  [predict_prompt_batch] is [None] when the
    object has no such attribute. *)
Record detector (A : Type) : Type := mkDetector {
  predict_prompt : string -> A -> string -> result prediction;
  predict : list string -> A -> option string -> string -> result prediction;
  predict_prompt_batch :
    option (list string -> list A -> string -> result (list prediction))
}.
Arguments mkDetector {A} _ _ _.
Arguments predict_prompt {A} _ _ _ _.
Arguments predict {A} _ _ _ _ _.
Arguments predict_prompt_batch {A} _.

Definition invalid_format_transformer : string :=
  "Invalid output_format. Use 'tokens' or 'spans'.".
Definition invalid_format_llm : string :=
  "Invalid output_format. This model can only predict hallucination spans. Use spans.".
Definition unsupported_method : string :=
  "Unsupported method. Choose 'transformer' or 'llm'.".

Section Collaborators.

(** [_form_prompt]: pure string formatting of the passages and question. *)
Variable _form_prompt : list string -> option string -> string.

(** Tokenisation and model inference of the transformer detector. *)
Variable infer : string -> string -> result encoded.

(** [TransformerDetector._predict]: inference runs first, then the
    dispatch on [output_format]. *)
Definition transformer_predict (context answer output_format : string)
  : result prediction :=
  e <- infer context answer ;;
  if String.eqb output_format "tokens" then Ok (Tokens (predict_tokens e))
  else if String.eqb output_format "spans" then Ok (Spans (predict_spans answer e))
  else Err (ValueError invalid_format_transformer).

Definition TransformerDetector : detector string :=
  {| predict_prompt := transformer_predict;
     predict := fun context answer question output_format =>
       transformer_predict (_form_prompt context question) answer output_format;
     predict_prompt_batch := None |}.

(** The chat completion call and [json.loads]. *)
Variable chat : string -> string -> result string.
Variable json_loads : string -> result pyval.

(** [LLMDetector._predict]. *)
Definition llm_predict (context answer output_format : string)
  : result prediction :=
  if String.eqb output_format "spans" then
    llm_content <- chat context answer ;;
    predictions <- _create_labels json_loads llm_content answer ;;
    Ok (Spans predictions)
  else Err (ValueError invalid_format_llm).

Definition LLMDetector : detector string :=
  {| predict_prompt := llm_predict;
     predict := fun context answer question output_format =>
       llm_predict (_form_prompt context question) answer output_format;
     predict_prompt_batch := None |}.

End Collaborators.

(** The facade object around [self.detector]: it defines [predict] and
    [predict_prompt] by delegation and nothing else. *)
Definition facade {A : Type} (inner : detector A) : detector A :=
  {| predict_prompt := predict_prompt inner;
     predict := predict inner;
     predict_prompt_batch := None |}.

(** [HallucinationDetector.__init__]: [new_transformer] and [new_llm] stand
    for the two constructor calls with the given keyword arguments. *)
Definition HallucinationDetector {A : Type}
    (new_transformer new_llm : result (detector A)) (method : string)
  : result (detector A) :=
  if String.eqb method "transformer" then
    d <- new_transformer ;; Ok (facade d)
  else if String.eqb method "llm" then
    d <- new_llm ;; Ok (facade d)
  else Err (ValueError unsupported_method).

End Detectors.

(* ===================================================================== *)
(** ** The metric library interface *)
(* ===================================================================== *)

Module Metrics.

(** A float that may be NaN. *)
Inductive fval : Type :=
| NaN
| Fin (q : Q).

(** Precision, recall and F1 of one class. *)
Record prf : Type := mkPrf {
  precision : fval;
  recall : fval;
  f1 : fval
}.

(** The [zero_division] argument; ["warn"] is the default when the caller
    passes none. *)
Inductive zero_division : Type :=
| ZD_warn
| ZD_value (q : Q)
| ZD_nan.

(** The scikit-learn functions the evaluator calls.
    - [precision_recall_fscore_support y_true y_pred zd] is the call with
      [labels=[0, 1], average=None]; it returns the rows of class 0 and 1.
    - [roc_auc y_true y_score] is [auc(fpr, tpr)] on the result of
      [roc_curve(y_true, y_score)].
    - [classification_report] and [accuracy_score] as named. *)
Record metrics_lib : Type := mkLib {
  precision_recall_fscore_support :
    list Z -> list Z -> zero_division -> result (prf * prf);
  roc_auc : list Z -> list Q -> result fval;
  classification_report : list Z -> list Z -> zero_division -> result string;
  accuracy_score : list Z -> list Z -> result fval
}.

(** The [results] dict of the evaluation functions. *)
Record report : Type := mkReport {
  supported : prf;
  hallucinated : prf;
  auroc : fval;
  accuracy : option fval;
  loss : option Q;
  report_text : option string
}.

Definition zero_prf : prf :=
  {| precision := Fin 0; recall := Fin 0; f1 := Fin 0 |}.

End Metrics.

(* ===================================================================== *)
(** ** A model of scikit-learn's metric functions *)
(* ===================================================================== *)

Module Sklearn.

Import Metrics.

(** The value a metric takes when its denominator is zero: ["warn"] acts
    as [0]. *)
Definition zd_value (zd : zero_division) : fval :=
  match zd with
  | ZD_warn => Fin 0
  | ZD_value q => Fin q
  | ZD_nan => NaN
  end.

Definition count {A : Type} (f : A -> bool) (xs : list A) : Z :=
  Z.of_nat (List.length (filter f xs)).

(** Modelled from the spec: [precision_recall_fscore_support] belongs to
    scikit-learn and is not part of the repository.  Section 4.3 of the
    specification describes it: per-class precision, recall and F1 from
    one-vs-rest confusion-matrix counts, with the zero-division policy
    deciding the value of a ratio whose denominator is zero.  [tp_sum],
    [pred_sum] and [true_sum] are the counts of class [c]. *)
Definition prf_class (zd : zero_division) (c : Z) (y_true y_pred : list Z) : prf :=
  let pairs := combine y_true y_pred in
  let tp_sum := count (fun yp => (fst yp =? c) && (snd yp =? c)) pairs in
  let pred_sum := count (fun p => p =? c) y_pred in
  let true_sum := count (fun y => y =? c) y_true in
  {| precision :=
       if pred_sum =? 0 then zd_value zd
       else Fin (inject_Z tp_sum / inject_Z pred_sum);
     recall :=
       if true_sum =? 0 then zd_value zd
       else Fin (inject_Z tp_sum / inject_Z true_sum);
     f1 :=
       if pred_sum + true_sum =? 0 then zd_value zd
       else Fin (inject_Z (2 * tp_sum) / inject_Z (pred_sum + true_sum)) |}.

Definition inconsistent_lengths : string :=
  "Found input variables with inconsistent numbers of samples".

Definition precision_recall_fscore_support
    (y_true y_pred : list Z) (zd : zero_division) : result (prf * prf) :=
  if negb (Nat.eqb (List.length y_true) (List.length y_pred))
  then Err (ValueError inconsistent_lengths)
  else Ok (prf_class zd 0 y_true y_pred, prf_class zd 1 y_true y_pred).

(** [roc_curve] is called without [pos_label]: the classes of [y_true]
    must then be [{0, 1}], [{-1, 1}], [{0}], [{-1}] or [{1}].  An empty
    [y_true] has no class and is rejected. *)
Definition classes_ok (y_true : list Z) : bool :=
  match y_true with
  | [] => false
  | _ :: _ =>
      forallb (fun y => (y =? 0) || (y =? 1)) y_true
      || forallb (fun y => (y =? -1) || (y =? 1)) y_true
  end.

Definition pos_label_unspecified : string :=
  "y_true takes value in {} and pos_label is not specified".

(** The contribution of a (positive, negative) pair of scores to the area. *)
Definition pair_score (sp sn : Q) : Q :=
  if Qgtb sp sn then 1%Q else if Qeq_bool sp sn then (1 # 2)%Q else 0%Q.

(** The area under the ROC curve: the share of (positive, negative) pairs
    that the score orders correctly, ties counting one half.  With no
    positive or no negative example the curve is undefined and the area is
    NaN. *)
Definition roc_auc (y_true : list Z) (y_score : list Q) : result fval :=
  if negb (Nat.eqb (List.length y_true) (List.length y_score))
  then Err (ValueError inconsistent_lengths)
  else if negb (classes_ok y_true)
  then Err (ValueError pos_label_unspecified)
  else
    let pairs := combine y_true y_score in
    let pos := map snd (filter (fun ys => fst ys =? 1) pairs) in
    let neg := map snd (filter (fun ys => negb (fst ys =? 1)) pairs) in
    match pos, neg with
    | [], _ => Ok NaN
    | _, [] => Ok NaN
    | _, _ =>
        let total :=
          fold_left (fun acc sp =>
            fold_left (fun acc' sn => (acc' + pair_score sp sn)%Q) neg acc)
            pos 0%Q in
        Ok (Fin (total / inject_Z (Z.of_nat (List.length pos * List.length neg))))
    end.

(** The classes present in the data, for [classification_report]. *)
Definition present (c : Z) (y_true y_pred : list Z) : bool :=
  existsb (fun y => y =? c) y_true || existsb (fun p => p =? c) y_pred.

Definition class_count_mismatch : string :=
  "Number of classes does not match size of target_names".

(** [classification_report] with two [target_names] and no [labels]: the
    data must show exactly two classes.  [render] lays out the table. *)
Definition classification_report (render : list Z -> list Z -> string)
    (y_true y_pred : list Z) (zd : zero_division) : result string :=
  if negb (Nat.eqb (List.length y_true) (List.length y_pred))
  then Err (ValueError inconsistent_lengths)
  else
    let values := nodup Z.eq_dec (y_true ++ y_pred) in
    if Nat.eqb (List.length values) 2 then Ok (render y_true y_pred)
    else Err (ValueError class_count_mismatch).

Definition accuracy_score (y_true y_pred : list Z) : result fval :=
  if negb (Nat.eqb (List.length y_true) (List.length y_pred))
  then Err (ValueError inconsistent_lengths)
  else
    match y_true with
    | [] => Ok NaN
    | _ :: _ =>
        Ok (Fin (inject_Z (count (fun yp => fst yp =? snd yp) (combine y_true y_pred))
                 / inject_Z (Z.of_nat (List.length y_true))))
    end.

Definition sklearn (render : list Z -> list Z -> string) : metrics_lib :=
  {| Metrics.precision_recall_fscore_support := precision_recall_fscore_support;
     Metrics.roc_auc := roc_auc;
     Metrics.classification_report := classification_report render;
     Metrics.accuracy_score := accuracy_score |}.


End Sklearn.

(* ===================================================================== *)
(** ** [lettucedetect/models/evaluator.py] *)
(* ===================================================================== *)

Module Evaluator.

Import SpanBuilder Detectors Metrics.

(** One token of a batch: its gold label, [argmax(logits)] and
    [softmax(logits)[1]]. *)
Record etoken : Type := mkEToken {
  et_label : Z;
  et_pred : Z;
  et_prob1 : Q
}.

(** One example is a row of tokens; one batch is a list of examples. *)
Definition example : Type := list etoken.
Definition batch : Type := list example.

Definition valid (t : etoken) : bool := negb (et_label t =? -100).

(** The answer handed to a detector: [sample.answer] or
    [sample.answer_sentences]. *)
Inductive answer_arg : Type :=
| AnswerText (s : string)
| AnswerSentences (l : list string).

(** The fields of [HallucinationSample] the evaluator reads. *)
Record sample : Type := mkSample {
  prompt : string;
  answer : string;
  answer_sentences : option (list string);
  labels : list gold_span
}.

(** [sample.answer_sentences if sample.answer_sentences else sample.answer]. *)
Definition answer_of (s : sample) : answer_arg :=
  match answer_sentences s with
  | Some (x :: l) => AnswerSentences (x :: l)
  | _ => AnswerText (answer s)
  end.

(** [1 if xs else 0]. *)
Definition flag {A : Type} (xs : list A) : Z := if truthy xs then 1 else 0.

(** Truthiness of what a detector returned. *)
Definition prediction_flag (r : prediction) : Z :=
  match r with
  | Tokens l => flag l
  | Spans l => flag l
  end.

(** Reading ["start"] and ["end"] of each predicted dict; a token dict has
    neither key. *)
Definition span_dicts (r : prediction) : result (list span) :=
  match r with
  | Spans l => Ok l
  | Tokens [] => Ok []
  | Tokens (_ :: _) => Err (KeyError "end"%string)
  end.

Section WithLibrary.

Variable lib : metrics_lib.

(** The common tail of the evaluation functions: per-class metrics, then
    AUROC, then the optional report.  [zd] is the [zero_division] argument
    of [precision_recall_fscore_support], [zd_report] the one of
    [classification_report]. *)
Definition report_metrics (zd zd_report : zero_division)
    (all_labels all_preds : list Z) (scores : list Q) (verbose : bool)
  : result report :=
  pr <- precision_recall_fscore_support lib all_labels all_preds zd ;;
  a <- roc_auc lib all_labels scores ;;
  let results :=
    {| supported := fst pr; hallucinated := snd pr; auroc := a;
       accuracy := None; loss := None; report_text := None |} in
  if verbose then
    txt <- classification_report lib all_labels all_preds zd_report ;;
    Ok {| supported := fst pr; hallucinated := snd pr; auroc := a;
          accuracy := None; loss := None; report_text := Some txt |}
  else Ok results.

(** *** [evaluate_model] *)

(** [predictions[mask]] and [labels[mask]] of one batch, flattened. *)
Definition masked (b : batch) : list etoken := filter valid (List.concat b).

Definition accumulate_model (dataloader : list batch) : list Z * list Z :=
  fold_left
    (fun acc b =>
       (fst acc ++ map et_pred (masked b), snd acc ++ map et_label (masked b)))
    dataloader ([], []).

Definition evaluate_model (dataloader : list batch) (verbose : bool)
  : result report :=
  let '(all_preds, all_labels) := accumulate_model dataloader in
  report_metrics ZD_warn ZD_warn all_labels all_preds
                 (map inject_Z all_preds) verbose.

(** *** [evaluate_model_example_level] *)

(** [sample_probs[:, 1].max()] on a non-empty row. *)
Definition max_of (x : Q) (xs : list Q) : Q := fold_left Py.max xs x.

(** The three values appended for one example. *)
Definition example_result (ex : example) : Z * Z * Q :=
  let kept := filter valid ex in
  match kept with
  | [] => (0, 0, 0%Q)
  | t :: rest =>
      (if existsb (fun u => et_label u =? 1) kept then 1 else 0,
       if existsb (fun u => et_pred u =? 1) kept then 1 else 0,
       max_of (et_prob1 t) (map et_prob1 rest))
  end.

Record example_acc : Type := mkAcc {
  example_preds : list Z;
  example_labels : list Z;
  example_probs : list Q
}.

Definition push (acc : example_acc) (r : Z * Z * Q) : example_acc :=
  {| example_labels := example_labels acc ++ [fst (fst r)];
     example_preds := example_preds acc ++ [snd (fst r)];
     example_probs := example_probs acc ++ [snd r] |}.

Definition accumulate_model_example_level (dataloader : list batch) : example_acc :=
  fold_left
    (fun acc b => fold_left (fun acc' ex => push acc' (example_result ex)) b acc)
    dataloader
    {| example_preds := []; example_labels := []; example_probs := [] |}.

Definition evaluate_model_example_level (dataloader : list batch) (verbose : bool)
  : result report :=
  let acc := accumulate_model_example_level dataloader in
  report_metrics (ZD_value 0) (ZD_value 0)
                 (example_labels acc) (example_preds acc) (example_probs acc) verbose.

(** *** [evaluate_detector_example_level] *)

Definition example_level_step (detector : Detectors.detector answer_arg)
    (acc : list Z * list Z) (s : sample) : result (list Z * list Z) :=
  let gold_spans := labels s in
  predicted_spans <- predict_prompt detector (prompt s) (answer_of s) "spans"%string ;;
  let true_example_label := flag gold_spans in
  let pred_example_label := prediction_flag predicted_spans in
  Ok (fst acc ++ [true_example_label], snd acc ++ [pred_example_label]).

(** The loop: the pair of [example_labels] and [example_preds]. *)
Definition accumulate_example_level (detector : Detectors.detector answer_arg)
    (samples : list sample) : result (list Z * list Z) :=
  foldM (example_level_step detector) samples ([], []).

Definition evaluate_detector_example_level
    (detector : Detectors.detector answer_arg) (samples : list sample)
    (verbose : bool) : result report :=
  acc <- accumulate_example_level detector samples ;;
  report_metrics (ZD_value 0) (ZD_value 0) (fst acc) (snd acc)
                 (map inject_Z (snd acc)) verbose.

(** *** [evaluate_detector_example_level_batch] *)

Definition no_batch_method : string :=
  "object has no attribute 'predict_prompt_batch'".

(** [for sample, pred_spans in zip(batch, predicted_spans)]. *)
Definition zip_step (acc : list Z * list Z) (sp : sample * prediction)
  : list Z * list Z :=
  (fst acc ++ [flag (labels (fst sp))], snd acc ++ [prediction_flag (snd sp)]).

Definition batch_step (detector : Detectors.detector answer_arg)
    (samples : list sample) (batch_size : Z)
    (acc : list Z * list Z) (i : Z) : result (list Z * list Z) :=
  let batch := slice_list samples i (i + batch_size) in
  let prompts := map prompt batch in
  let answers := map answer_of batch in
  match predict_prompt_batch detector with
  | None => Err (AttributeError no_batch_method)
  | Some call =>
      predicted_spans <- call prompts answers "spans"%string ;;
      Ok (fold_left zip_step (combine batch predicted_spans) acc)
  end.

Definition accumulate_example_level_batch
    (detector : Detectors.detector answer_arg) (samples : list sample)
    (batch_size : Z) : result (list Z * list Z) :=
  starts <- range 0 (Z.of_nat (List.length samples)) batch_size ;;
  foldM (batch_step detector samples batch_size) starts ([], []).

Definition evaluate_detector_example_level_batch
    (detector : Detectors.detector answer_arg) (samples : list sample)
    (batch_size : Z) (verbose : bool) : result report :=
  acc <- accumulate_example_level_batch detector samples batch_size ;;
  report_metrics (ZD_value 0) (ZD_value 0) (fst acc) (snd acc)
                 (map inject_Z (snd acc)) verbose.

End WithLibrary.

(** *** [evaluate_detector_char_level] *)

(** [sum(d["end"] - d["start"] for d in ...)]. *)
Definition predicted_length (preds : list span) : Z :=
  fold_left (fun acc p => acc + (span_end p - span_start p)) preds 0.

Definition gold_length (golds : list gold_span) : Z :=
  fold_left (fun acc g => acc + (gold_end g - gold_start g)) golds 0.

(** The nested loop over predicted and gold spans. *)
Definition sample_overlap (preds : list span) (golds : list gold_span) : Z :=
  fold_left
    (fun acc pred =>
       fold_left
         (fun acc' gold =>
            let overlap_start := Z.max (span_start pred) (gold_start gold) in
            let overlap_end := Z.min (span_end pred) (gold_end gold) in
            if overlap_end >? overlap_start
            then acc' + (overlap_end - overlap_start)
            else acc')
         golds acc)
    preds 0.

(** [total_overlap], [total_predicted], [total_gold]. *)
Record totals : Type := mkTotals {
  total_overlap : Z;
  total_predicted : Z;
  total_gold : Z
}.

Definition char_step (detector : Detectors.detector answer_arg)
    (acc : totals) (s : sample) : result totals :=
  let gold_spans := labels s in
  r <- predict_prompt detector (prompt s) (AnswerText (answer s)) "spans"%string ;;
  predicted_spans <- span_dicts r ;;
  let total_predicted' := total_predicted acc + predicted_length predicted_spans in
  let total_gold' := total_gold acc + gold_length gold_spans in
  Ok {| total_overlap := total_overlap acc + sample_overlap predicted_spans gold_spans;
        total_predicted := total_predicted';
        total_gold := total_gold' |}.

(** The returned dict [{"precision", "recall", "f1"}]. *)
Record char_metrics : Type := mkChar {
  char_precision : Q;
  char_recall : Q;
  char_f1 : Q
}.

Definition char_finalize (t : totals) : char_metrics :=
  let precision :=
    if total_predicted t >? 0
    then (inject_Z (total_overlap t) / inject_Z (total_predicted t))%Q else 0%Q in
  let recall :=
    if total_gold t >? 0
    then (inject_Z (total_overlap t) / inject_Z (total_gold t))%Q else 0%Q in
  let f1 :=
    if Qgtb (precision + recall) 0
    then (2 * precision * recall / (precision + recall))%Q else 0%Q in
  {| char_precision := precision; char_recall := recall; char_f1 := f1 |}.

Definition accumulate_char_level (detector : Detectors.detector answer_arg)
    (samples : list sample) : result totals :=
  foldM (char_step detector) samples
        {| total_overlap := 0; total_predicted := 0; total_gold := 0 |}.

Definition evaluate_detector_char_level
    (detector : Detectors.detector answer_arg) (samples : list sample)
  : result char_metrics :=
  t <- accumulate_char_level detector samples ;;
  Ok (char_finalize t).

(** *** The quantities the character-level metrics are stated with *)

Definition sum_Z (l : list Z) : Z := fold_right Z.add 0 l.

(** The overlap length of one predicted and one gold span. *)
Definition pair_overlap (pg : span * gold_span) : Z :=
  Z.max 0 (Z.min (span_end (fst pg)) (gold_end (snd pg))
           - Z.max (span_start (fst pg)) (gold_start (snd pg))).

(** The overlap of one example: the sum over every (predicted, gold) pair. *)
Definition overlap_of (preds : list span) (golds : list gold_span) : Z :=
  sum_Z (map pair_overlap (list_prod preds golds)).

Definition span_lengths (preds : list span) : Z :=
  sum_Z (map (fun p => span_end p - span_start p) preds).

Definition gold_lengths (golds : list gold_span) : Z :=
  sum_Z (map (fun g => gold_end g - gold_start g) golds).

(** The data-model invariant of a span, [start <= end]. *)
Definition wf_span (p : span) : Prop := span_start p <= span_end p.
Definition wf_gold (g : gold_span) : Prop := gold_start g <= gold_end g.

(** The predicted spans of a sample, as the character-level loop reads
    them. *)
Definition char_prediction (detector : Detectors.detector answer_arg)
    (s : sample) : result (list span) :=
  r <- predict_prompt detector (prompt s) (AnswerText (answer s)) "spans"%string ;;
  span_dicts r.

(** The prediction of a sample in the example-level loop. *)
Definition example_prediction (detector : Detectors.detector answer_arg)
    (s : sample) : result prediction :=
  predict_prompt detector (prompt s) (answer_of s) "spans"%string.

(** A detector returned at least one dict. *)
Definition nonempty_prediction (r : prediction) : Prop :=
  match r with
  | Tokens l => l <> []
  | Spans l => l <> []
  end.

(** The boundaries of a list of gold spans, in list order. *)
Definition gold_bounds (golds : list gold_span) : list Z :=
  flat_map (fun g => [gold_start g; gold_end g]) golds.

(** Spans listed left to right without overlap:
    [start_0 <= end_0 <= start_1 <= ...]. *)
Definition ordered_golds (golds : list gold_span) : Prop :=
  Sorted Z.le (gold_bounds golds).

Definition ordered_spans (preds : list span) : Prop :=
  Sorted Z.le (SpanBuilder.bounds preds).

(** A detector object that offers [predict_prompt_batch], answering each
    pair as [predict_prompt] does. *)
Definition pointwise_batch (detector : Detectors.detector answer_arg) : Prop :=
  exists call,
    predict_prompt_batch detector = Some call
    /\ forall prompts answers output_format,
         call prompts answers output_format
         = mapM (fun pa => predict_prompt detector (fst pa) (snd pa) output_format)
                (combine prompts answers).

End Evaluator.

(* ===================================================================== *)
(** ** [evaluate_sentence_model] *)
(* ===================================================================== *)

Module SentenceModel.

Import Metrics.

Section WithModel.

(** A row of logits, with its [argmax]. *)
Variable logit_row : Type.
Variable argmax : logit_row -> Z.

(** The loss function, on the truncated logits and labels of one document. *)
Variable criterion : list logit_row -> list Z -> result Q.

Variable lib : metrics_lib.

(** One batch: the model call, which may raise, and [batch["labels"]]. *)
Record sbatch : Type := mkSBatch {
  logits_list : result (list (list logit_row));
  labels_list : list (list Z)
}.

(** The variables that outlive a batch. *)
Record state : Type := mkState {
  total_loss : Q;
  step_count : Z;
  all_preds : list Z;
  all_labels : list Z
}.

(** The variables of the loop over the documents of one batch; the two
    lists are the same objects as in [state] and are extended in place. *)
Record doc_state : Type := mkDocState {
  batch_loss : Q;
  doc_count : Z;
  d_preds : list Z;
  d_labels : list Z
}.

(** [for i, logits in enumerate(logits_list)]: the second component tells
    whether the loop was left by an exception. *)
Fixpoint docs_loop (docs : list (nat * list logit_row))
    (labels_list : list (list Z)) (d : doc_state) : doc_state * bool :=
  match docs with
  | [] => (d, false)
  | (i, logits) :: rest =>
      match nth_error labels_list i with
      | None => docs_loop rest labels_list d
      | Some labels_i =>
          if Nat.eqb (List.length logits) 0 then docs_loop rest labels_list d
          else
            let effective_size :=
              Nat.min (List.length logits) (List.length labels_i) in
            let mismatch :=
              negb (Nat.eqb (List.length logits) (List.length labels_i)) in
            let logits' := if mismatch then firstn effective_size logits else logits in
            let labels_i' := if mismatch then firstn effective_size labels_i else labels_i in
            match criterion logits' labels_i' with
            | Err _ => (d, true)
            | Ok loss_i =>
                docs_loop rest labels_list
                  {| batch_loss := (batch_loss d + loss_i)%Q;
                     doc_count := doc_count d + 1;
                     d_preds := d_preds d ++ map argmax logits';
                     d_labels := d_labels d ++ labels_i' |}
            end
      end
  end.

(** The body of [for batch in progress_bar], with its [try]/[except]. *)
Definition loader_step (st : state) (b : sbatch) : state :=
  match logits_list b with
  | Err _ => st
  | Ok ll =>
      let '(d, raised) :=
        docs_loop (combine (seq 0 (List.length ll)) ll) (labels_list b)
          {| batch_loss := 0; doc_count := 0;
             d_preds := all_preds st; d_labels := all_labels st |} in
      if raised then
        {| total_loss := total_loss st; step_count := step_count st;
           all_preds := d_preds d; all_labels := d_labels d |}
      else if doc_count d >? 0 then
        {| total_loss :=
             (total_loss st + batch_loss d / inject_Z (doc_count d))%Q;
           step_count := step_count st + 1;
           all_preds := d_preds d; all_labels := d_labels d |}
      else
        {| total_loss := total_loss st; step_count := step_count st;
           all_preds := d_preds d; all_labels := d_labels d |}
  end.

(** The loop over the loader; a loader that raises ends the loop. *)
Fixpoint batches_loop (test_loader : list (result sbatch)) (st : state) : state :=
  match test_loader with
  | [] => st
  | Err _ :: _ => st
  | Ok b :: rest => batches_loop rest (loader_step st b)
  end.

Definition initial : state :=
  {| total_loss := 0; step_count := 0; all_preds := []; all_labels := [] |}.

(** The dict with every metric at [0.0]. *)
Definition zero_results (l : option Q) : report :=
  {| supported := zero_prf; hallucinated := zero_prf; auroc := Fin 0;
     accuracy := Some (Fin 0); loss := l; report_text := None |}.

(** The metrics inside the second [try]: any exception is caught and the
    zero values are stored. *)
Definition computed_metrics (st : state) (l : option Q) : report :=
  match all_preds st with
  | [] => zero_results l
  | _ :: _ =>
      let attempt :=
        pr <- precision_recall_fscore_support lib (all_labels st) (all_preds st)
                                               (ZD_value 0) ;;
        acc <- accuracy_score lib (all_labels st) (all_preds st) ;;
        a <- roc_auc lib (all_labels st) (map inject_Z (all_preds st)) ;;
        Ok {| supported := fst pr; hallucinated := snd pr; auroc := a;
              accuracy := Some acc; loss := l; report_text := None |} in
      match attempt with
      | Ok r => r
      | Err _ => zero_results l
      end
  end.

Definition finalize (st : state) (verbose : bool) : result report :=
  if step_count st =? 0 then Ok (zero_results None)
  else
    let l := Some (total_loss st / inject_Z (step_count st))%Q in
    let results := computed_metrics st l in
    if verbose then
      txt <- classification_report lib (all_labels st) (all_preds st) ZD_warn ;;
      Ok {| supported := supported results; hallucinated := hallucinated results;
            auroc := auroc results; accuracy := accuracy results;
            loss := loss results; report_text := Some txt |}
    else Ok results.

Definition evaluate_sentence_model (test_loader : list (result sbatch))
    (verbose : bool) : result report :=
  finalize (batches_loop test_loader initial) verbose.

End WithModel.

End SentenceModel.

(* ===================================================================== *)
(** ** The baseline scripts: [chatgpt_baseline.py], [ragas_baseline.py] *)
(* ===================================================================== *)

Module Scripts.

(** *** The resumable loops of the two [main] functions *)

(** The output file: absent, holding data that loads, or holding content
    whose loading raises. *)
Definition disk (S : Type) : Type := option (result (list S)).

(** [load_check_existing_data]: an absent file gives empty data; a
    [JSONDecodeError] or [KeyError] while loading is caught and gives empty
    data; any other exception propagates. *)
Definition load_check_existing_data {S : Type} (output_file : disk S)
  : result (list S) :=
  match output_file with
  | None => Ok []
  | Some (Ok samples) => Ok samples
  | Some (Err JSONDecodeError) => Ok []
  | Some (Err (KeyError _)) => Ok []
  | Some (Err e) => Err e
  end.

(** The data in memory and the output file. *)
Record run_state (S : Type) : Type := mkRun {
  in_memory : list S;
  on_disk : disk S
}.
Arguments mkRun {S} _ _.
Arguments in_memory {S} _.
Arguments on_disk {S} _.

Section Loop.

Variables T S : Type.

(** The creation of one baseline sample; it may raise. *)
Variable create_sample_baseline : T -> result S.

(** The test that guards the write of the output file, on the index [i]. *)
Variable save_now : Z -> bool.

(** [for i, sample in enumerate(items, start=i)]: append the new sample,
    then write the file when the test holds.  An exception ends the run
    with what was written so far. *)
Fixpoint baseline_loop (items : list T) (i : Z) (st : run_state S)
  : run_state S * option exn :=
  match items with
  | [] => (st, None)
  | sample :: rest =>
      match create_sample_baseline sample with
      | Err e => (st, Some e)
      | Ok created =>
          let samples := in_memory st ++ [created] in
          let st' :=
            {| in_memory := samples;
               on_disk := if save_now i then Some (Ok samples) else on_disk st |} in
          baseline_loop rest (i + 1) st'
      end
  end.

End Loop.

(** [i % 10 == 0 or i == total_samples - 1]. *)
Definition chatgpt_save_now (total_samples : Z) (i : Z) : bool :=
  (i mod 10 =? 0) || (i =? total_samples - 1).

(** [main] of [chatgpt_baseline.py] after the input is read: the loop runs
    over all test samples, numbered from the count of existing samples. *)
Definition chatgpt_main {T S : Type} (create_sample_baseline : T -> result S)
    (test_samples : list T) (output_file : disk S)
  : result (run_state S * option exn) :=
  hallu_data_gpt <- load_check_existing_data output_file ;;
  let num_processed := Z.of_nat (List.length hallu_data_gpt) in
  let total_samples := Z.of_nat (List.length hallu_data_gpt) in
  Ok (baseline_loop create_sample_baseline (chatgpt_save_now total_samples)
                    test_samples num_processed
                    {| in_memory := hallu_data_gpt; on_disk := output_file |}).

(** [get_api_key]: [os.getenv("OPENAI_API_KEY") or "EMPTY"], rejected when
    it is ["EMPTY"]. *)
Definition get_api_key (env : option string) : result string :=
  let api_key :=
    match env with
    | Some (String c k) => String c k
    | _ => "EMPTY"%string
    end in
  if String.eqb api_key "EMPTY" then Err (ValueError "Provide an OpenAI API key.")
  else Ok api_key.

(** [(i + 1) % 50 == 0 or (i + 1) == total_samples]. *)
Definition ragas_save_now (total_samples : Z) (i : Z) : bool :=
  ((i + 1) mod 50 =? 0) || (i + 1 =? total_samples).

(** [main] of [ragas_baseline.py] after the input is read: the key is
    fetched for the LLM wrapper, then the loop runs over
    [samples[num_processed:]]. *)
Definition ragas_main {T S : Type} (env : option string)
    (create_sample_baseline : T -> result S)
    (samples : list T) (output_file : disk S)
  : result (run_state S * option exn) :=
  hallucination_data_ragas <- load_check_existing_data output_file ;;
  openai_api_key <- get_api_key env ;;
  let num_processed := List.length hallucination_data_ragas in
  let total_samples := Z.of_nat (List.length hallucination_data_ragas) in
  let samples_to_process := skipn num_processed samples in
  Ok (baseline_loop create_sample_baseline (ragas_save_now total_samples)
                    samples_to_process (Z.of_nat num_processed)
                    {| in_memory := hallucination_data_ragas;
                       on_disk := output_file |}).

(** *** [ragas_baseline.py]: the scores and the thresholds *)

(** The value stored under ["faithfulness"]: the score, or the text of the
    caught error. *)
Inductive faithfulness : Type :=
| Score (q : Q)
| ErrorText (msg : string).

(** [evaluate_metrics]: any exception of the metric is caught and stored
    as the text [f"Error: {e}"]; [describe] is [str] on exceptions. *)
Definition evaluate_metrics (describe : exn -> string)
    (single_turn_score : result Q) : faithfulness :=
  match single_turn_score with
  | Ok q => Score q
  | Err e => ErrorText ("Error: " ++ describe e)
  end.

Definition thresholds : list Q := [(4 # 10)%Q; (5 # 10)%Q; (6 # 10)%Q; (7 # 10)%Q].

(** [1 if ragas_metrics["faithfulness"] < threshold else 0]; comparing the
    error text with a float raises [TypeError]. *)
Definition threshold_flag (f : faithfulness) (threshold : Q) : result Z :=
  match f with
  | Score q => Ok (if Qgtb threshold q then 1 else 0)
  | ErrorText _ =>
      Err (TypeError "'<' not supported between instances of 'str' and 'float'")
  end.

(** The labels dict of [create_sample_baseline]: the score and the flag of
    each threshold, in order. *)
Definition ragas_labels (describe : exn -> string)
    (single_turn_score : result Q) : result (faithfulness * list Z) :=
  let ragas_metrics := evaluate_metrics describe single_turn_score in
  flags <- mapM (threshold_flag ragas_metrics) thresholds ;;
  Ok (ragas_metrics, flags).

(** *** [ragas_baseline.py]: [split_prompt] *)

(** [s.split(sep)] for a separator of one character. *)
Fixpoint str_split (sep : ascii) (s : string) : list string :=
  match s with
  | EmptyString => [EmptyString]
  | String c s' =>
      if Ascii.eqb c sep then EmptyString :: str_split sep s'
      else
        match str_split sep s' with
        | piece :: pieces => String c piece :: pieces
        | [] => [String c EmptyString]
        end
  end.

(** [sep.join(pieces)]. *)
Fixpoint str_join (sep : string) (pieces : list string) : string :=
  match pieces with
  | [] => EmptyString
  | piece :: rest =>
      match rest with
      | [] => piece
      | _ :: _ => piece ++ sep ++ str_join sep rest
      end
  end.

(** A value that is a [str] on one path and a list of [str] on another. *)
Inductive str_or_list : Type :=
| AStr (s : string)
| AList (l : list string).

(** What iterating over the value yields: the characters of a [str], the
    elements of a list. *)
Definition iter_strs (v : str_or_list) : list string :=
  match v with
  | AStr s => map (fun c => String c EmptyString) (list_ascii_of_string s)
  | AList l => l
  end.

(** The two fields of a sample that [split_prompt] reads. *)
Record prompt_sample : Type := mkPromptSample {
  task_type : string;
  prompt : string
}.

(** [split_prompt]: the user input, joined by spaces, and the retrieved
    contexts. *)
Definition split_prompt (sample : prompt_sample) : string * str_or_list :=
  let has_colon := LLMLabels.contains_char ":" (prompt sample) in
  let pieces := str_split ":" (prompt sample) in
  let '(user_input, retrieved_contexts) :=
    if String.eqb (task_type sample) "Summary" then
      (if has_colon then AStr (nth 0 pieces EmptyString)
       else AStr (task_type sample),
       if has_colon then AList (skipn 1 pieces) else AStr (prompt sample))
    else
      (if has_colon then AList (firstn 2 pieces) else AStr (task_type sample),
       if has_colon then AList (skipn 2 pieces) else AStr (prompt sample)) in
  (str_join " " (iter_strs user_input), retrieved_contexts).

(** How many samples the file holds after [n] samples were created from
    index [i] on without an exception: those up to the last index at which
    the test held; [0] when it never held. *)
Fixpoint saved_count (save_now : Z -> bool) (i : Z) (n : nat) : nat :=
  match n with
  | O => O
  | S n' =>
      if save_now (i + Z.of_nat n') then S n' else saved_count save_now i n'
  end.

End Scripts.

(* ===================================================================== *)
(** ** Sample data *)
(* ===================================================================== *)

Module Samples.

Import SpanBuilder.

(** Three answer tokens of the answer ["The cat sat"]: two hallucinated,
    one supported. *)
Definition answer_text : string := "The cat sat down".
Definition tok_the : token := mkToken 0 0 3 1 (6 # 10) "The".
Definition tok_cat : token := mkToken 0 4 7 1 (9 # 10) "cat".
Definition tok_sat : token := mkToken 0 8 11 0 (1 # 10) "sat".

(** A special token of zero width. *)
Definition tok_sep : token := mkToken 0 0 0 1 (5 # 10) "[SEP]".

Definition open_the : open_span := mkOpen 0 3 (6 # 10).

(** A stream with two hallucinated runs around a supported token. *)
Definition tok_down : token := mkToken 0 12 16 1 (7 # 10) "down".
Definition stream : list token := [tok_the; tok_cat; tok_sat; tok_sep; tok_down].

(** An LLM response whose list names one phrase twice and one phrase
    that the answer does not contain. *)
Definition llm_answer : string := "a cat and a cat".
Definition llm_hals : list string := ["cat"; "dog"; "cat"]%string.
Definition llm_dict : list (string * LLMLabels.pyval) :=
  [("hallucination list"%string,
    LLMLabels.PList (map LLMLabels.PStr llm_hals))].
Definition json_stub (text : string) : result LLMLabels.pyval :=
  Ok (LLMLabels.PDict llm_dict).
Definition span_cat : span := mkSpan 2 5 None "cat".

(** Collaborators that always answer. *)
Definition form_stub (context : list string) (question : option string) : string :=
  "prompt".
Definition chat_stub (context answer : string) : result string := Ok "{x}"%string.
Definition encoded_stream : SpanBuilder.encoded :=
  SpanBuilder.mkEncoded
    [SpanBuilder.mkPosition "The" 0 3 1 (6 # 10);
     SpanBuilder.mkPosition "cat" 4 7 0 (2 # 10)] 0.
Definition infer_stub (context answer : string) : result SpanBuilder.encoded :=
  Ok encoded_stream.

(** An example whose tokens are all ignored, and the example of the
    specification: gold labels [0, 0, 1, 0], predictions all [0]. *)
Definition ignored_example : Evaluator.example :=
  [Evaluator.mkEToken (-100) 1 (9 # 10); Evaluator.mkEToken (-100) 0 (1 # 10)].
Definition missed_example : Evaluator.example :=
  [Evaluator.mkEToken 0 0 (1 # 10); Evaluator.mkEToken 0 0 (2 # 10);
   Evaluator.mkEToken 1 0 (4 # 10); Evaluator.mkEToken 0 0 (3 # 10)].

(** The character-level example of the specification: one predicted span
    [(0, 5)] against one gold span [(2, 8)]. *)
Definition span_0_5 : span := mkSpan 0 5 (Some (8 # 10)) "Hello".
Definition fixed_detector : Detectors.detector Evaluator.answer_arg :=
  Detectors.mkDetector
    (fun _ _ _ => Ok (Detectors.Spans [span_0_5]))
    (fun _ _ _ _ => Ok (Detectors.Spans [span_0_5]))
    None.
Definition sample_2_8 : Evaluator.sample :=
  Evaluator.mkSample "prompt" "Hello world" None [mkGold 2 8].

(** A report renderer, and a loader whose only batch fails in the model. *)
Definition render_stub (y_true y_pred : list Z) : string := "report".
Definition criterion_stub (logits : list Z) (labels : list Z) : result Q :=
  Ok (1 # 2).
Definition failing_loader : list (result (SentenceModel.sbatch Z)) :=
  [Ok (SentenceModel.mkSBatch (Err (CollaboratorFailure "out of memory")) [[0; 1]])].

(** A sample whose gold span is annotated twice. *)
Definition sample_twice : Evaluator.sample :=
  Evaluator.mkSample "prompt" "Hello world" None [mkGold 0 5; mkGold 0 5].



End Samples.

(* ===================================================================== *)
(** * Properties of the span builder *)
(* ===================================================================== *)

Module SpanBuilderFacts.

Import SpanBuilder.

Lemma max_ge_l (a b : Q) : (a <= Py.max a b)%Q.
Proof.
  unfold Py.max, Qgtb.
  destruct (Qle_bool b a) eqn:E; simpl.
  - apply Qle_refl.
  - destruct (Qlt_le_dec a b) as [H | H].
    + apply Qlt_le_weak; exact H.
    + apply Qle_bool_iff in H. congruence.
Qed.

Lemma max_ge_r (a b : Q) : (b <= Py.max a b)%Q.
Proof.
  unfold Py.max, Qgtb.
  destruct (Qle_bool b a) eqn:E; simpl.
  - apply Qle_bool_iff; exact E.
  - apply Qle_refl.
Qed.

Lemma max_cases (a b : Q) : Py.max a b = a \/ Py.max a b = b.
Proof.
  unfold Py.max. destruct (Qgtb b a); [right | left]; reflexivity.
Qed.

Lemma eligible_split (t : token) :
  eligible t = true ->
  (label t =? IGNORE) = false /\ (token_start t =? token_end t) = false.
Proof.
  unfold eligible. intros H.
  apply andb_true_iff in H. destruct H as [H1 H2].
  apply negb_true_iff in H1. apply negb_true_iff in H2. split; assumption.
Qed.

Lemma step_ineligible (answer : string) (off : Z) (st : builder) (t : token) :
  eligible t = false -> span_step answer off st t = st.
Proof.
  unfold eligible, span_step. intros H.
  destruct (label t =? IGNORE); [reflexivity |].
  destruct (token_start t =? token_end t); [reflexivity | discriminate].
Qed.

Lemma run_snoc (answer : string) (off : Z) (ts : list token) (t : token)
    (st : builder) :
  run answer off (ts ++ [t]) st = span_step answer off (run answer off ts st) t.
Proof.
  unfold run. rewrite fold_left_app. reflexivity.
Qed.

Lemma run_ineligible (answer : string) (off : Z) (toks : list token) :
  (forall t, In t toks -> eligible t = false) ->
  forall st, run answer off toks st = st.
Proof.
  induction toks as [| t toks IH]; intros Hall st.
  - reflexivity.
  - unfold run. simpl. rewrite step_ineligible.
    + apply IH. intros u Hu. apply Hall. right; exact Hu.
    + apply Hall. left; reflexivity.
Qed.

(** C1.  The merge step of the span builder.  For an eligible token (label
    not [-100], non-zero width): with [token_pred = 1] it opens a span at
    the token's relative offsets when none is open, and otherwise moves the
    open span's end to the token's relative end and sets the confidence to
    the maximum of the old confidence and the token's class-1 probability,
    whatever the offsets of the two tokens are; with [token_pred = 0] it
    closes the open span, appended with text [answer[start:end]].
    Ineligible tokens leave the state alone, the stream is consumed one
    token after the other, the span open at the end is appended, and a
    stream without eligible tokens gives the empty list. *)
Theorem C1_span_builder_merge_step (answer : string) (off : Z) :
  (forall st t,
      eligible t = true -> token_pred t = 1 -> current_span st = None ->
      span_step answer off st t =
      {| spans := spans st;
         current_span := Some {| os_start := token_start t - off;
                                 os_end := token_end t - off;
                                 os_confidence := prob1 t |} |})
  /\ (forall st t cs,
      eligible t = true -> token_pred t = 1 -> current_span st = Some cs ->
      span_step answer off st t =
      {| spans := spans st;
         current_span := Some {| os_start := os_start cs;
                                 os_end := token_end t - off;
                                 os_confidence :=
                                   Py.max (os_confidence cs) (prob1 t) |} |}
      /\ (os_confidence cs <= Py.max (os_confidence cs) (prob1 t))%Q
      /\ (prob1 t <= Py.max (os_confidence cs) (prob1 t))%Q
      /\ (Py.max (os_confidence cs) (prob1 t) = os_confidence cs
          \/ Py.max (os_confidence cs) (prob1 t) = prob1 t))
  /\ (forall st t cs,
      eligible t = true -> token_pred t = 0 -> current_span st = Some cs ->
      span_step answer off st t =
      {| spans := spans st ++ [materialize answer cs]; current_span := None |}
      /\ span_text (materialize answer cs)
         = slice answer (os_start cs) (os_end cs)
      /\ span_start (materialize answer cs) = os_start cs
      /\ span_end (materialize answer cs) = os_end cs)
  /\ (forall st t,
      eligible t = true -> token_pred t = 0 -> current_span st = None ->
      span_step answer off st t = st)
  /\ (forall st t, eligible t = false -> span_step answer off st t = st)
  /\ (forall ts t st,
      run answer off (ts ++ [t]) st = span_step answer off (run answer off ts st) t)
  /\ (forall toks cs,
      current_span (run answer off toks init) = Some cs ->
      build_spans answer off toks
      = spans (run answer off toks init) ++ [materialize answer cs])
  /\ (forall toks,
      current_span (run answer off toks init) = None ->
      build_spans answer off toks = spans (run answer off toks init))
  /\ (forall toks,
      (forall t, In t toks -> eligible t = false) ->
      build_spans answer off toks = []).
Proof.
  split; [| split; [| split; [| split; [| split; [| split; [| split; [| split]]]]]]].
  - intros st t He Hp Hc. apply eligible_split in He. destruct He as [H1 H2].
    unfold span_step. rewrite H1, H2, Hp, Hc. reflexivity.
  - intros st t cs He Hp Hc. apply eligible_split in He. destruct He as [H1 H2].
    split; [| split; [| split]].
    + unfold span_step. rewrite H1, H2, Hp, Hc. reflexivity.
    + apply max_ge_l.
    + apply max_ge_r.
    + apply max_cases.
  - intros st t cs He Hp Hc. apply eligible_split in He. destruct He as [H1 H2].
    split; [| split; [| split]]; try reflexivity.
    unfold span_step. rewrite H1, H2, Hp, Hc. reflexivity.
  - intros st t He Hp Hc. apply eligible_split in He. destruct He as [H1 H2].
    unfold span_step. rewrite H1, H2, Hp, Hc. simpl. reflexivity.
  - intros st t He. apply step_ineligible; exact He.
  - intros ts t st. apply run_snoc.
  - intros toks cs H. unfold build_spans, finish. rewrite H. reflexivity.
  - intros toks H. unfold build_spans, finish. rewrite H. reflexivity.
  - intros toks H. unfold build_spans. rewrite run_ineligible by exact H.
    reflexivity.
Qed.

Lemma C1_span_builder_merge_step_witness :
  span_step Samples.answer_text 0 init Samples.tok_the
  = {| spans := []; current_span := Some Samples.open_the |}
  /\ span_step Samples.answer_text 0
       {| spans := []; current_span := Some Samples.open_the |} Samples.tok_cat
     = {| spans := [];
          current_span := Some (mkOpen 0 7 (Py.max (6 # 10) (9 # 10))) |}
  /\ span_step Samples.answer_text 0
       {| spans := []; current_span := Some (mkOpen 0 7 (9 # 10)) |}
       Samples.tok_sat
     = {| spans := [mkSpan 0 7 (Some (9 # 10)) "The cat"];
          current_span := None |}
  /\ build_spans Samples.answer_text 0 [Samples.tok_sep] = [].
Proof.
  destruct (C1_span_builder_merge_step Samples.answer_text 0)
    as (Hopen & Hextend & Hclose & _ & _ & _ & _ & _ & Hnone).
  split; [| split; [| split]].
  - apply (Hopen init Samples.tok_the); reflexivity.
  - apply (Hextend {| spans := []; current_span := Some Samples.open_the |}
                   Samples.tok_cat Samples.open_the); reflexivity.
  - apply (Hclose {| spans := []; current_span := Some (mkOpen 0 7 (9 # 10)) |}
                  Samples.tok_sat (mkOpen 0 7 (9 # 10))); reflexivity.
  - apply Hnone. intros t [Ht | []]. subst t. reflexivity.
Defined.

(** *** Order of the spans *)

















End SpanBuilderFacts.

(* ===================================================================== *)
(** * Properties of the LLM labels *)
(* ===================================================================== *)

Module LLMFacts.

Import LLMLabels.

Lemma substring_past_end (s : string) :
  forall p k, (String.length s <= p)%nat -> substring p k s = EmptyString.
Proof.
  induction s as [| c s IH]; intros p k H.
  - destruct p, k; reflexivity.
  - destruct p as [| p]; simpl in H; [lia |].
    simpl. apply IH. lia.
Qed.

Lemma substring_truncate (s : string) :
  forall p k,
    substring p (Nat.min k (String.length s - p)) s = substring p k s.
Proof.
  induction s as [| c s IH]; intros p k.
  - destruct p, k; reflexivity.
  - destruct p as [| p].
    + destruct k as [| k]; [reflexivity |].
      simpl. f_equal. specialize (IH 0%nat k).
      rewrite Nat.sub_0_r in IH. exact IH.
    + simpl. apply IH.
Qed.

(** A slice with natural bounds is the standard [substring]. *)
Lemma slice_substring (s : string) (p k : nat) :
  slice s (Z.of_nat p) (Z.of_nat (p + k)) = substring p k s.
Proof.
  unfold slice, clamp_index.
  destruct (Z.of_nat p <? 0) eqn:E1; [apply Z.ltb_lt in E1; lia |].
  destruct (Z.of_nat (p + k) <? 0) eqn:E2; [apply Z.ltb_lt in E2; lia |].
  destruct (Nat.le_gt_cases (String.length s) p) as [H | H].
  - rewrite (substring_past_end s k H).
    replace (Z.to_nat (Z.min (Z.of_nat p) (Z.of_nat (String.length s))))
      with (String.length s) by lia.
    apply substring_past_end. lia.
  - replace (Z.to_nat (Z.min (Z.of_nat p) (Z.of_nat (String.length s))))
      with p by lia.
    replace (Z.to_nat (Z.min (Z.of_nat (p + k)) (Z.of_nat (String.length s))
                       - Z.min (Z.of_nat p) (Z.of_nat (String.length s))))
      with (Nat.min k (String.length s - p)) by lia.
    apply substring_truncate.
Qed.

Lemma label_step_str (answer h : string) (acc : list span) :
  label_step answer acc (PStr h) = Ok (acc ++ label_of answer h).
Proof.
  unfold label_step, label_of.
  destruct (search_literal h answer); [reflexivity |].
  rewrite app_nil_r. reflexivity.
Qed.

Lemma fold_labels (answer : string) (hals : list string) :
  forall acc,
    foldM (label_step answer) (map PStr hals) acc
    = Ok (acc ++ flat_map (label_of answer) hals).
Proof.
  induction hals as [| h hals IH]; intros acc.
  - simpl. rewrite app_nil_r. reflexivity.
  - cbn [map foldM flat_map]. rewrite label_step_str. cbn [bind].
    rewrite IH, <- app_assoc. reflexivity.
Qed.

Lemma label_of_sound (answer h : string) (s : span) :
  In s (label_of answer h) ->
  span_text s = h
  /\ search_literal h answer = Some (Z.to_nat (span_start s))
  /\ 0 <= span_start s
  /\ span_end s = span_start s + Z.of_nat (String.length h).
Proof.
  unfold label_of. destruct (search_literal h answer) as [m |] eqn:E.
  - intros [<- | []]. simpl. rewrite Nat2Z.id. repeat split; lia.
  - intros [].
Qed.

Lemma occurs_found (answer h : string) (p : nat) :
  substring p (String.length h) answer = h ->
  exists m, search_literal h answer = Some m.
Proof.
  intros Hp. unfold search_literal.
  destruct (index 0 h answer) as [m |] eqn:E; [exists m; reflexivity |].
  exfalso.
  destruct h as [| c h'].
  - apply index_correct4 in E. lia.
  - apply (index_correct3 0 p (String c h') answer E);
      [discriminate | lia | exact Hp].
Qed.

(** C10.  From a parsed hallucination list, the LLM detector emits, in the
    order of the list, one span for every listed string that occurs in the
    answer and none for a string that does not occur.  Each span carries
    the listed string as text, [answer[start:end]] is that text, and no
    earlier position of the answer holds it: a phrase listed twice is
    attributed to its first occurrence both times. *)
Theorem C10_llm_spans_first_occurrence
    (json_loads : string -> result pyval) (llm_content answer text : string)
    (kvs : list (string * pyval)) (hals : list string) :
  search_braces llm_content = Some text ->
  json_loads text = Ok (PDict kvs) ->
  dict_get kvs "hallucination list"%string = Some (PList (map PStr hals)) ->
  exists out : list span,
    _create_labels json_loads llm_content answer = Ok out
    /\ create_labels answer (PDict kvs) = Ok out
    /\ out = flat_map (label_of answer) hals
    /\ (forall s, In s out ->
          In (span_text s) hals
          /\ 0 <= span_start s
          /\ span_end s = span_start s + Z.of_nat (String.length (span_text s))
          /\ slice answer (span_start s) (span_end s) = span_text s
          /\ (forall p : nat,
                Z.of_nat p < span_start s ->
                slice answer (Z.of_nat p)
                      (Z.of_nat (p + String.length (span_text s)))
                <> span_text s))
    /\ (forall h,
          In h hals ->
          (forall p : nat,
              slice answer (Z.of_nat p) (Z.of_nat (p + String.length h)) <> h) ->
          label_of answer h = [] /\ (forall s, In s out -> span_text s <> h))
    /\ (forall h (p : nat),
          In h hals ->
          slice answer (Z.of_nat p) (Z.of_nat (p + String.length h)) = h ->
          exists s, In s out /\ span_text s = h).
Proof.
  intros Hb Hj Hd.
  assert (Hc : create_labels answer (PDict kvs)
               = Ok (flat_map (label_of answer) hals)).
  { unfold create_labels, getitem. rewrite Hd. simpl.
    rewrite fold_labels. reflexivity. }
  exists (flat_map (label_of answer) hals).
  split; [| split; [exact Hc | split; [reflexivity | split; [| split]]]].
  - unfold _create_labels. rewrite Hb, Hj. exact Hc.
  - intros s Hs. apply in_flat_map in Hs. destruct Hs as (h & Hh & Hs).
    destruct (label_of_sound _ _ _ Hs) as (Ht & Hi & H0 & He).
    rewrite Ht. split; [exact Hh |]. split; [exact H0 |]. split; [exact He |].
    unfold search_literal in Hi.
    split.
    + rewrite He.
      replace (span_start s) with (Z.of_nat (Z.to_nat (span_start s))) at 1 2 by lia.
      rewrite <- Nat2Z.inj_add, slice_substring.
      apply (index_correct1 _ _ _ _ Hi).
    + intros p Hp. rewrite slice_substring.
      apply (index_correct2 _ _ _ _ Hi); lia.
  - intros h Hh Hnever.
    assert (Hl : label_of answer h = []).
    { unfold label_of. destruct (search_literal h answer) as [m |] eqn:E;
        [| reflexivity].
      exfalso. apply (Hnever m). rewrite slice_substring.
      apply (index_correct1 _ _ _ _ E). }
    split; [exact Hl |].
    intros s Hs Ht. apply in_flat_map in Hs. destruct Hs as (h' & Hh' & Hs).
    destruct (label_of_sound _ _ _ Hs) as (Ht' & _).
    assert (Heq : h' = h) by congruence.
    rewrite Heq, Hl in Hs. exact Hs.
  - intros h p Hh Hp. rewrite slice_substring in Hp.
    destruct (occurs_found _ _ Hp) as (m & Hm).
    exists {| span_start := Z.of_nat m;
              span_end := Z.of_nat (m + String.length h);
              span_confidence := None; span_text := h |}.
    split; [| reflexivity].
    apply in_flat_map. exists h. split; [exact Hh |].
    unfold label_of. rewrite Hm. left. reflexivity.
Qed.

Lemma C10_llm_spans_first_occurrence_witness :
  _create_labels Samples.json_stub "{x}" Samples.llm_answer
  = Ok [Samples.span_cat; Samples.span_cat].
Proof.
  destruct (@C10_llm_spans_first_occurrence Samples.json_stub "{x}"
              Samples.llm_answer "{x}" Samples.llm_dict Samples.llm_hals
              eq_refl eq_refl eq_refl)
    as (out & H1 & _ & H3 & _).
  rewrite H1, H3. reflexivity.
Defined.

Lemma no_braces_raises (json_loads : string -> result pyval)
    (llm_content answer : string) :
  search_braces llm_content = None ->
  _create_labels json_loads llm_content answer
  = Err (AttributeError "'NoneType' object has no attribute 'group'").
Proof.
  intros H. unfold _create_labels. rewrite H. reflexivity.
Qed.

Lemma undecodable_gives_no_labels (json_loads : string -> result pyval)
    (llm_content answer text : string) :
  search_braces llm_content = Some text ->
  json_loads text = Err JSONDecodeError ->
  _create_labels json_loads llm_content answer = Ok [].
Proof.
  intros H1 H2. unfold _create_labels. rewrite H1, H2. reflexivity.
Qed.

(** C5.  A response that is not the expected JSON object is meant to give
    zero spans.  [_create_labels] does so only when a brace-delimited text
    is found and fails to decode (last clause).  A response without braces
    raises [AttributeError], a JSON object without the key raises
    [KeyError], and [create_sample_baseline] raises [TypeError] even when
    decoding fails, because it passes the undecoded text on. *)
Theorem C5_malformed_llm_output_raises
    (json_loads : string -> result pyval) (answer : string) :
  _create_labels json_loads "No hallucinations found." answer
  = Err (AttributeError "'NoneType' object has no attribute 'group'")
  /\ _create_labels (fun _ => Ok (PDict [])) "{}" answer
     = Err (KeyError "hallucination list")
  /\ create_sample_baseline_labels (fun _ => Err JSONDecodeError) "{oops}" answer
     = Err (TypeError "string indices must be integers")
  /\ _create_labels (fun _ => Err JSONDecodeError) "{oops}" answer = Ok [].
Proof.
  repeat split; reflexivity.
Qed.

End LLMFacts.

(* ===================================================================== *)
(** * Properties of the detectors *)
(* ===================================================================== *)

Module DetectorFacts.

Import SpanBuilder LLMLabels Detectors.

Lemma eqb_false (a b : string) : a <> b -> String.eqb a b = false.
Proof. intros H. apply String.eqb_neq. exact H. Qed.

(** C9, as the code has it.  The transformer detector, once tokenisation
    and inference have returned, raises its invalid-format error exactly
    when the format is neither ["tokens"] nor ["spans"] and returns for
    those two.  The LLM detector raises its invalid-format error for every
    format other than ["spans"], ["tokens"] included, before it calls any
    collaborator; for ["spans"] its result is that of the chat call
    followed by [_create_labels].  The facade raises the unsupported-method
    error when the method is neither ["transformer"] nor ["llm"], otherwise
    it wraps what the selected constructor returns, and its prediction
    calls are those of the wrapped detector. *)
Theorem C9_invalid_configuration_errors
    (form : list string -> option string -> string)
    (infer : string -> string -> result encoded)
    (chat : string -> string -> result string)
    (json_loads : string -> result pyval)
    (context answer fmt : string) :
  (forall e,
      infer context answer = Ok e ->
      (transformer_predict infer context answer fmt
       = Err (ValueError invalid_format_transformer)
       <-> fmt <> "tokens"%string /\ fmt <> "spans"%string)
      /\ (fmt = "tokens"%string ->
          transformer_predict infer context answer fmt
          = Ok (Tokens (predict_tokens e)))
      /\ (fmt = "spans"%string ->
          transformer_predict infer context answer fmt
          = Ok (Spans (predict_spans answer e))))
  /\ (fmt <> "spans"%string ->
      llm_predict chat json_loads context answer fmt
      = Err (ValueError invalid_format_llm))
  /\ llm_predict chat json_loads context answer "spans"
     = (llm_content <- chat context answer ;;
        predictions <- _create_labels json_loads llm_content answer ;;
        Ok (Spans predictions))
  /\ (forall (A : Type) (new_transformer new_llm : result (detector A))
             (method : string),
        (method <> "transformer"%string -> method <> "llm"%string ->
         HallucinationDetector new_transformer new_llm method
         = Err (ValueError unsupported_method))
        /\ HallucinationDetector new_transformer new_llm "transformer"
           = (d <- new_transformer ;; Ok (facade d))
        /\ HallucinationDetector new_transformer new_llm "llm"
           = (d <- new_llm ;; Ok (facade d)))
  /\ (forall (A : Type) (d : detector A),
        predict_prompt (facade d) = predict_prompt d
        /\ predict (facade d) = predict d)
  /\ predict_prompt (TransformerDetector form infer) = transformer_predict infer
  /\ predict_prompt (LLMDetector form chat json_loads)
     = llm_predict chat json_loads.
Proof.
  split; [| split; [| split; [| split; [| split; [| split]]]]].
  - intros e He. unfold transformer_predict. rewrite He. cbn [bind].
    split; [| split].
    + destruct (String.eqb fmt "tokens") eqn:E1.
      * apply String.eqb_eq in E1. split; [discriminate | intros [H _]; contradiction].
      * destruct (String.eqb fmt "spans") eqn:E2.
        -- apply String.eqb_eq in E2.
           split; [discriminate | intros [_ H]; contradiction].
        -- apply String.eqb_neq in E1. apply String.eqb_neq in E2.
           split; [intros _; split; assumption | reflexivity].
    + intros ->. reflexivity.
    + intros ->. reflexivity.
  - intros H. unfold llm_predict. rewrite (eqb_false H). reflexivity.
  - reflexivity.
  - intros A nt nl method. split; [| split]; try reflexivity.
    intros H1 H2. unfold HallucinationDetector.
    rewrite (eqb_false H1), (eqb_false H2). reflexivity.
  - intros A d. split; reflexivity.
  - reflexivity.
  - reflexivity.
Qed.

Lemma C9_invalid_configuration_errors_witness :
  transformer_predict Samples.infer_stub "context" "answer" "json"
  = Err (ValueError invalid_format_transformer)
  /\ llm_predict Samples.chat_stub Samples.json_stub "context" "answer" "json"
     = Err (ValueError invalid_format_llm)
  /\ HallucinationDetector
       (Ok (TransformerDetector Samples.form_stub Samples.infer_stub))
       (Ok (LLMDetector Samples.form_stub Samples.chat_stub Samples.json_stub))
       "ragas"
     = Err (ValueError unsupported_method).
Proof.
  destruct (C9_invalid_configuration_errors Samples.form_stub Samples.infer_stub
              Samples.chat_stub Samples.json_stub "context" "answer" "json")
    as (Ht & Hl & _ & Hf & _).
  split; [| split].
  - destruct (Ht Samples.encoded_stream eq_refl) as (Hiff & _).
    apply Hiff. split; discriminate.
  - apply Hl. discriminate.
  - apply Hf; discriminate.
Defined.

(** C9 as stated fails: ["tokens"] is one of the two formats it calls
    supported, and it is the default of the facade's prediction
    calls, yet an LLM-backed facade raises on it. *)
Lemma C9_counterexample_llm_rejects_tokens :
  HallucinationDetector
    (Ok (TransformerDetector Samples.form_stub Samples.infer_stub))
    (Ok (LLMDetector Samples.form_stub Samples.chat_stub Samples.json_stub))
    "llm"
  = Ok (facade (LLMDetector Samples.form_stub Samples.chat_stub Samples.json_stub))
  /\ predict_prompt
       (facade (LLMDetector Samples.form_stub Samples.chat_stub Samples.json_stub))
       "context" "answer"%string "tokens"
     = Err (ValueError invalid_format_llm)
  /\ predict
       (facade (LLMDetector Samples.form_stub Samples.chat_stub Samples.json_stub))
       ["context"%string] "answer"%string None "tokens"
     = Err (ValueError invalid_format_llm).
Proof.
  repeat split; reflexivity.
Qed.

End DetectorFacts.

(* ===================================================================== *)
(** * Properties of the evaluation functions *)
(* ===================================================================== *)

Module EvaluatorFacts.

Import SpanBuilder Detectors Metrics Evaluator.

(** *** Example-level labels *)

Lemma flag_spec {A : Type} (l : list A) :
  (flag l = 1 <-> l <> []) /\ (flag l = 0 <-> l = []).
Proof.
  destruct l as [| x l]; simpl; unfold flag; simpl.
  - split; split; intros H; try reflexivity; try discriminate; congruence.
  - split; split; intros H; try reflexivity; try discriminate.
Qed.

Lemma prediction_flag_spec (r : prediction) :
  (prediction_flag r = 1 <-> nonempty_prediction r)
  /\ (prediction_flag r = 0 \/ prediction_flag r = 1).
Proof.
  destruct r as [l | l]; simpl; split;
    try apply flag_spec; destruct l; unfold flag; simpl; auto.
Qed.

Lemma existsb_flag (f : etoken -> bool) (l : list etoken) :
  (if existsb f l then 1 else 0) = 1 <-> exists u, In u l /\ f u = true.
Proof.
  destruct (existsb f l) eqn:E.
  - apply existsb_exists in E. split; [intros _; exact E | reflexivity].
  - split; [discriminate |].
    intros H. apply existsb_exists in H. congruence.
Qed.

Lemma example_result_labels (ex : example) :
  fst (fst (example_result ex))
  = (if existsb (fun u => et_label u =? 1) (filter valid ex) then 1 else 0)
  /\ snd (fst (example_result ex))
     = (if existsb (fun u => et_pred u =? 1) (filter valid ex) then 1 else 0).
Proof.
  unfold example_result. destruct (filter valid ex); split; reflexivity.
Qed.

Lemma in_valid (f : etoken -> Z) (ex : example) :
  (exists u, In u (filter valid ex) /\ (f u =? 1) = true)
  <-> (exists u, In u ex /\ valid u = true /\ f u = 1).
Proof.
  split; intros (u & Hu & Hf).
  - apply filter_In in Hu. exists u. rewrite Z.eqb_eq in Hf. tauto.
  - destruct Hf as [Hv Hf]. exists u. split.
    + apply filter_In. tauto.
    + apply Z.eqb_eq. exact Hf.
Qed.

Lemma no_valid_filter (ex : example) :
  (forall u, In u ex -> valid u = false) -> filter valid ex = [].
Proof.
  induction ex as [| u ex IH]; intros H; simpl.
  - reflexivity.
  - rewrite (H u) by (left; reflexivity). apply IH.
    intros v Hv. apply H. right; exact Hv.
Qed.

Lemma push_fold (b : list example) :
  forall acc,
    fold_left (fun acc' ex => push acc' (example_result ex)) b acc
    = {| example_labels :=
           example_labels acc ++ map (fun ex => fst (fst (example_result ex))) b;
         example_preds :=
           example_preds acc ++ map (fun ex => snd (fst (example_result ex))) b;
         example_probs :=
           example_probs acc ++ map (fun ex => snd (example_result ex)) b |}.
Proof.
  induction b as [| ex b IH]; intros acc; simpl.
  - rewrite !app_nil_r. destruct acc; reflexivity.
  - rewrite IH. unfold push. simpl. rewrite <- !app_assoc. reflexivity.
Qed.

Lemma accumulate_model_example_level_flat (dataloader : list batch) :
  accumulate_model_example_level dataloader
  = {| example_labels :=
         map (fun ex => fst (fst (example_result ex))) (List.concat dataloader);
       example_preds :=
         map (fun ex => snd (fst (example_result ex))) (List.concat dataloader);
       example_probs :=
         map (fun ex => snd (example_result ex)) (List.concat dataloader) |}.
Proof.
  unfold accumulate_model_example_level.
  set (acc0 := {| example_preds := []; example_labels := []; example_probs := [] |}).
  assert (G : forall acc,
    fold_left
      (fun acc b => fold_left (fun acc' ex => push acc' (example_result ex)) b acc)
      dataloader acc
    = {| example_labels :=
           example_labels acc
           ++ map (fun ex => fst (fst (example_result ex))) (List.concat dataloader);
         example_preds :=
           example_preds acc
           ++ map (fun ex => snd (fst (example_result ex))) (List.concat dataloader);
         example_probs :=
           example_probs acc
           ++ map (fun ex => snd (example_result ex)) (List.concat dataloader) |}).
  { induction dataloader as [| b d IH]; intros acc; simpl.
    - rewrite !app_nil_r. destruct acc; reflexivity.
    - rewrite IH, push_fold. simpl. rewrite !map_app, <- !app_assoc. reflexivity. }
  rewrite G. reflexivity.
Qed.

Lemma accumulate_example_level_from (detector : Detectors.detector answer_arg)
    (samples : list sample) :
  forall preds acc,
    mapM (example_prediction detector) samples = Ok preds ->
    foldM (example_level_step detector) samples acc
    = Ok (fst acc ++ map (fun s => flag (labels s)) samples,
          snd acc ++ map prediction_flag preds).
Proof.
  induction samples as [| s samples IH]; intros preds acc H; simpl in *.
  - inversion H. simpl. rewrite !app_nil_r. destruct acc; reflexivity.
  - unfold example_level_step at 1. unfold example_prediction in H at 1.
    destruct (predict_prompt detector (prompt s) (answer_of s) "spans") as [r | e];
      simpl in *; [| discriminate].
    destruct (mapM (example_prediction detector) samples) as [rs | e] eqn:E;
      simpl in *; [| discriminate].
    inversion H; subst. rewrite (IH rs _ eq_refl). simpl.
    rewrite <- !app_assoc. reflexivity.
Qed.

(** C2.  The example-level labels.  In the token-based evaluator the
    predicted label of an example is 1 exactly when some valid token (gold
    label not [-100]) is predicted class 1, the gold label is 1 exactly
    when some valid token has gold label 1, and an example without valid
    tokens gets labels 0 and 0 and score [0.0]; the accumulated lists hold
    these values example by example.  In the span-based evaluators the gold
    label is 1 exactly when the gold span list is non-empty and the
    predicted label is 1 exactly when the detector returned a non-empty
    list, in the single-pass loop and in the loop over a batch. *)
Theorem C2_example_level_labels :
  (forall ex : example,
      (snd (fst (example_result ex)) = 1
       <-> exists u, In u ex /\ valid u = true /\ et_pred u = 1)
      /\ (fst (fst (example_result ex)) = 1
          <-> exists u, In u ex /\ valid u = true /\ et_label u = 1)
      /\ (snd (fst (example_result ex)) = 0 \/ snd (fst (example_result ex)) = 1)
      /\ (fst (fst (example_result ex)) = 0 \/ fst (fst (example_result ex)) = 1)
      /\ ((forall u, In u ex -> valid u = false) ->
          example_result ex = (0, 0, 0%Q)))
  /\ (forall dataloader : list batch,
        accumulate_model_example_level dataloader
        = {| example_labels :=
               map (fun ex => fst (fst (example_result ex))) (List.concat dataloader);
             example_preds :=
               map (fun ex => snd (fst (example_result ex))) (List.concat dataloader);
             example_probs :=
               map (fun ex => snd (example_result ex)) (List.concat dataloader) |})
  /\ (forall (detector : Detectors.detector answer_arg) (samples : list sample)
             (preds : list prediction),
        mapM (example_prediction detector) samples = Ok preds ->
        accumulate_example_level detector samples
        = Ok (map (fun s => flag (labels s)) samples, map prediction_flag preds))
  /\ (forall (acc : list Z * list Z) (s : sample) (r : prediction),
        zip_step acc (s, r)
        = (fst acc ++ [flag (labels s)], snd acc ++ [prediction_flag r]))
  /\ (forall s : sample,
        (flag (labels s) = 1 <-> labels s <> [])
        /\ (flag (labels s) = 0 <-> labels s = []))
  /\ (forall r : prediction,
        (prediction_flag r = 1 <-> nonempty_prediction r)
        /\ (prediction_flag r = 0 \/ prediction_flag r = 1)).
Proof.
  split; [| split; [| split; [| split; [| split]]]].
  - intros ex. destruct (example_result_labels ex) as [Hl Hp].
    split; [| split; [| split; [| split]]].
    + rewrite Hp, existsb_flag. apply (in_valid et_pred).
    + rewrite Hl, existsb_flag. apply (in_valid et_label).
    + rewrite Hp.
      destruct (existsb (fun u => et_pred u =? 1) (filter valid ex));
        [right | left]; reflexivity.
    + rewrite Hl.
      destruct (existsb (fun u => et_label u =? 1) (filter valid ex));
        [right | left]; reflexivity.
    + intros H. unfold example_result. rewrite (no_valid_filter _ H). reflexivity.
  - apply accumulate_model_example_level_flat.
  - intros detector samples preds H. unfold accumulate_example_level.
    rewrite (accumulate_example_level_from _ _ ([], []) H). reflexivity.
  - reflexivity.
  - intros s. apply flag_spec.
  - apply prediction_flag_spec.
Qed.

Lemma C2_example_level_labels_witness :
  example_result Samples.ignored_example = (0, 0, 0%Q)
  /\ fst (fst (example_result Samples.missed_example)) = 1
  /\ snd (fst (example_result Samples.missed_example)) = 0.
Proof.
  destruct C2_example_level_labels as (Hex & _).
  split; [| split].
  - destruct (Hex Samples.ignored_example) as (_ & _ & _ & _ & Hnone).
    apply Hnone. intros u [<- | [<- | []]]; reflexivity.
  - destruct (Hex Samples.missed_example) as (_ & Hgold & _).
    apply Hgold. exists (mkEToken 1 0 (4 # 10)).
    split; [simpl; tauto | split; reflexivity].
  - destruct (Hex Samples.missed_example) as (Hpred & _ & [H0 | H1] & _).
    + exact H0.
    + exfalso. apply Hpred in H1. destruct H1 as (u & Hu & _ & Hp).
      simpl in Hu. destruct Hu as [<- | [<- | [<- | [<- | []]]]]; discriminate.
Defined.

(** *** Character-level metrics *)

Lemma fold_left_add {A : Type} (f : A -> Z) (l : list A) :
  forall a, fold_left (fun acc x => acc + f x) l a = a + sum_Z (map f l).
Proof.
  induction l as [| x l IH]; intros a; simpl.
  - lia.
  - rewrite IH. lia.
Qed.

Lemma sum_Z_app (l1 l2 : list Z) : sum_Z (l1 ++ l2) = sum_Z l1 + sum_Z l2.
Proof.
  induction l1 as [| x l1 IH]; simpl; [reflexivity | rewrite IH; lia].
Qed.

Lemma sum_Z_nonneg (l : list Z) : Forall (fun z => 0 <= z) l -> 0 <= sum_Z l.
Proof.
  induction 1 as [| x l Hx _ IH]; simpl; lia.
Qed.

Lemma predicted_length_sum (preds : list span) :
  predicted_length preds = span_lengths preds.
Proof.
  unfold predicted_length, span_lengths.
  rewrite (fold_left_add (fun p => span_end p - span_start p)). lia.
Qed.

Lemma gold_length_sum (golds : list gold_span) :
  gold_length golds = gold_lengths golds.
Proof.
  unfold gold_length, gold_lengths.
  rewrite (fold_left_add (fun g => gold_end g - gold_start g)). lia.
Qed.

Lemma inner_overlap (pred : span) (golds : list gold_span) :
  forall acc,
    fold_left
      (fun acc' gold =>
         let overlap_start := Z.max (span_start pred) (gold_start gold) in
         let overlap_end := Z.min (span_end pred) (gold_end gold) in
         if overlap_end >? overlap_start
         then acc' + (overlap_end - overlap_start)
         else acc')
      golds acc
    = acc + sum_Z (map (fun g => pair_overlap (pred, g)) golds).
Proof.
  induction golds as [| g golds IH]; intros acc; simpl.
  - lia.
  - rewrite IH. unfold pair_overlap at 2. simpl.
    destruct (Z.min (span_end pred) (gold_end g)
              >? Z.max (span_start pred) (gold_start g)) eqn:E.
    + apply Z.gtb_lt in E. lia.
    + rewrite Z.gtb_ltb in E. apply Z.ltb_ge in E. lia.
Qed.

Lemma sample_overlap_sum (preds : list span) (golds : list gold_span) :
  sample_overlap preds golds = overlap_of preds golds.
Proof.
  unfold sample_overlap, overlap_of.
  assert (G : forall acc,
    fold_left
      (fun acc pred =>
         fold_left
           (fun acc' gold =>
              let overlap_start := Z.max (span_start pred) (gold_start gold) in
              let overlap_end := Z.min (span_end pred) (gold_end gold) in
              if overlap_end >? overlap_start
              then acc' + (overlap_end - overlap_start)
              else acc')
           golds acc)
      preds acc
    = acc + sum_Z (map pair_overlap (list_prod preds golds))).
  { induction preds as [| pred preds IH]; intros acc; simpl.
    - lia.
    - rewrite IH, inner_overlap, map_app, sum_Z_app, map_map. lia. }
  rewrite G. lia.
Qed.

Lemma overlap_nonneg (preds : list span) (golds : list gold_span) :
  0 <= overlap_of preds golds.
Proof.
  unfold overlap_of. apply sum_Z_nonneg. apply Forall_map.
  apply Forall_forall. intros pg _. unfold pair_overlap. lia.
Qed.

Lemma span_lengths_nonneg (preds : list span) :
  Forall wf_span preds -> 0 <= span_lengths preds.
Proof.
  intros H. unfold span_lengths. apply sum_Z_nonneg. apply Forall_map.
  eapply Forall_impl; [| exact H]. unfold wf_span. intros p Hp. lia.
Qed.

Lemma gold_lengths_nonneg (golds : list gold_span) :
  Forall wf_gold golds -> 0 <= gold_lengths golds.
Proof.
  intros H. unfold gold_lengths. apply sum_Z_nonneg. apply Forall_map.
  eapply Forall_impl; [| exact H]. unfold wf_gold. intros g Hg. lia.
Qed.

(** The totals after the loop. *)
Lemma accumulate_char_level_from (detector : Detectors.detector answer_arg)
    (samples : list sample) :
  forall preds acc,
    mapM (char_prediction detector) samples = Ok preds ->
    foldM (char_step detector) samples acc
    = Ok {| total_overlap :=
              total_overlap acc
              + sum_Z (map (fun ps => overlap_of (fst ps) (labels (snd ps)))
                           (combine preds samples));
            total_predicted :=
              total_predicted acc + sum_Z (map span_lengths preds);
            total_gold :=
              total_gold acc
              + sum_Z (map (fun s => gold_lengths (labels s)) samples) |}.
Proof.
  induction samples as [| s samples IH]; intros preds acc H; simpl in *.
  - inversion H. simpl. rewrite !Z.add_0_r. destruct acc; reflexivity.
  - unfold char_step at 1. unfold char_prediction in H at 1.
    destruct (predict_prompt detector (prompt s) (AnswerText (answer s)) "spans")
      as [r | e]; simpl in *; [| discriminate].
    destruct (span_dicts r) as [l | e]; simpl in *; [| discriminate].
    destruct (mapM (char_prediction detector) samples) as [ls | e] eqn:E;
      simpl in *; [| discriminate].
    inversion H; subst. rewrite (IH ls _ eq_refl). simpl.
    rewrite sample_overlap_sum, predicted_length_sum, gold_length_sum.
    f_equal. f_equal; lia.
Qed.

Lemma ratio_nonneg (a b : Z) : 0 <= a -> 0 < b -> (0 <= inject_Z a / inject_Z b)%Q.
Proof.
  intros Ha Hb. unfold Qdiv. apply Qmult_le_0_compat.
  - change 0%Q with (inject_Z 0). rewrite <- Zle_Qle. exact Ha.
  - apply Qinv_le_0_compat. change 0%Q with (inject_Z 0).
    rewrite <- Zle_Qle. lia.
Qed.

Lemma finalize_nonneg (t : totals) :
  0 <= total_overlap t ->
  (0 <= char_precision (char_finalize t))%Q
  /\ (0 <= char_recall (char_finalize t))%Q.
Proof.
  intros Ho. unfold char_finalize. simpl. split.
  - destruct (total_predicted t >? 0) eqn:E.
    + apply ratio_nonneg; [exact Ho | apply Z.gtb_lt in E; lia].
    + apply Qle_refl.
  - destruct (total_gold t >? 0) eqn:E.
    + apply ratio_nonneg; [exact Ho | apply Z.gtb_lt in E; lia].
    + apply Qle_refl.
Qed.

(** C3.  On a corpus whose predictions the detector returns, with spans
    that respect [start <= end], the character-level evaluator returns
    precision = total_overlap / total_predicted (0 when total_predicted is
    0), recall = total_overlap / total_gold (0 when total_gold is 0) and
    F1 = 2 * precision * recall / (precision + recall) (0 when precision +
    recall is 0).  The overlap of an example is the sum over every
    (predicted, gold) pair of max(0, min(ends) - max(starts)), so a
    character covered twice counts twice; each side's total is the sum of
    end - start over its spans. *)
Theorem C3_char_level_metrics
    (detector : Detectors.detector answer_arg) (samples : list sample)
    (preds : list (list span)) :
  mapM (char_prediction detector) samples = Ok preds ->
  (forall l, In l preds -> Forall wf_span l) ->
  (forall s, In s samples -> Forall wf_gold (labels s)) ->
  let overlap :=
    sum_Z (map (fun ps => overlap_of (fst ps) (labels (snd ps)))
               (combine preds samples)) in
  let predicted := sum_Z (map span_lengths preds) in
  let gold := sum_Z (map (fun s => gold_lengths (labels s)) samples) in
  exists m : char_metrics,
    evaluate_detector_char_level detector samples = Ok m
    /\ (predicted = 0 -> char_precision m = 0%Q)
    /\ (predicted <> 0 ->
        char_precision m = (inject_Z overlap / inject_Z predicted)%Q)
    /\ (gold = 0 -> char_recall m = 0%Q)
    /\ (gold <> 0 -> char_recall m = (inject_Z overlap / inject_Z gold)%Q)
    /\ ((char_precision m + char_recall m == 0)%Q -> char_f1 m = 0%Q)
    /\ (~ (char_precision m + char_recall m == 0)%Q ->
        char_f1 m
        = (2 * char_precision m * char_recall m
           / (char_precision m + char_recall m))%Q).
Proof.
  intros Hp Hwp Hwg overlap predicted gold.
  assert (Ho : 0 <= overlap).
  { apply sum_Z_nonneg. apply Forall_map. apply Forall_forall.
    intros ps _. apply overlap_nonneg. }
  assert (Hpr : 0 <= predicted).
  { apply sum_Z_nonneg. apply Forall_map. apply Forall_forall.
    intros l Hl. apply span_lengths_nonneg. apply Hwp. exact Hl. }
  assert (Hg : 0 <= gold).
  { apply sum_Z_nonneg. apply Forall_map. apply Forall_forall.
    intros x Hx. apply gold_lengths_nonneg. apply Hwg. exact Hx. }
  set (t := {| total_overlap := overlap; total_predicted := predicted;
               total_gold := gold |}).
  exists (char_finalize t).
  split.
  { unfold evaluate_detector_char_level, accumulate_char_level.
    rewrite (accumulate_char_level_from _ _ _ Hp). reflexivity. }
  destruct (finalize_nonneg t Ho) as [Hp0 Hr0].
  unfold char_finalize in *. simpl in *.
  split; [| split; [| split; [| split; [| split]]]].
  - intros E. rewrite E. reflexivity.
  - intros E. destruct (predicted >? 0) eqn:E'; [reflexivity |].
    rewrite Z.gtb_ltb in E'. apply Z.ltb_ge in E'. lia.
  - intros E. rewrite E. reflexivity.
  - intros E. destruct (gold >? 0) eqn:E'; [reflexivity |].
    rewrite Z.gtb_ltb in E'. apply Z.ltb_ge in E'. lia.
  - intros E. unfold Qgtb.
    replace (Qle_bool _ 0) with true; [reflexivity |].
    symmetry. apply Qle_bool_iff. rewrite E. apply Qle_refl.
  - intros E. unfold Qgtb.
    destruct (Qle_bool _ 0) eqn:E'; [| reflexivity].
    exfalso. apply E. apply Qle_bool_iff in E'.
    apply Qle_antisym; [exact E' |].
    apply (Qle_trans _ (0 + 0)); [discriminate |].
    apply Qplus_le_compat; assumption.
Qed.

Lemma C3_char_level_metrics_witness :
  exists m : char_metrics,
    evaluate_detector_char_level Samples.fixed_detector [Samples.sample_2_8] = Ok m
    /\ char_precision m = (inject_Z 3 / inject_Z 5)%Q
    /\ char_recall m = (inject_Z 3 / inject_Z 6)%Q.
Proof.
  destruct (@C3_char_level_metrics Samples.fixed_detector [Samples.sample_2_8]
              [[Samples.span_0_5]] eq_refl) as (m & Hm & _ & Hp & _ & Hr & _).
  - intros l [<- | []]. repeat constructor. unfold wf_span. simpl. lia.
  - intros s [<- | []]. repeat constructor. unfold wf_gold. simpl. lia.
  - exists m. split; [exact Hm |]. split.
    + apply Hp. discriminate.
    + apply Hr. discriminate.
Defined.

End EvaluatorFacts.

(* ===================================================================== *)
(** * Properties of the metric computation *)
(* ===================================================================== *)

Module MetricFacts.

Import Detectors Metrics Sklearn Evaluator.









End MetricFacts.

(* ===================================================================== *)
(** * The empty corpus *)
(* ===================================================================== *)

Module EmptyCorpusFacts.

Import Detectors Metrics Sklearn Evaluator SentenceModel.

Section Sentinel.

Variable logit_row : Type.
Variable argmax : logit_row -> Z.
Variable criterion : list logit_row -> list Z -> result Q.

(** A batch whose model call raises leaves every accumulator alone. *)
Lemma failed_batch_skipped (st : state) (b : sbatch logit_row) (e : exn) :
  logits_list b = Err e -> loader_step argmax criterion st b = st.
Proof.
  intros H. unfold loader_step. rewrite H. reflexivity.
Qed.

Lemma all_failed_no_step (test_loader : list (result (sbatch logit_row))) :
  (forall b, In (Ok b) test_loader -> exists e, logits_list b = Err e) ->
  forall st, batches_loop argmax criterion test_loader st = st.
Proof.
  induction test_loader as [| [b | e] rest IH]; intros H st; simpl.
  - reflexivity.
  - destruct (H b (or_introl eq_refl)) as (e & He).
    rewrite (failed_batch_skipped st b He).
    apply IH. intros b' Hb'. apply H. right. exact Hb'.
  - reflexivity.
Qed.

End Sentinel.

(** C4, as the code has it.  [evaluate_sentence_model] returns the
    zero-valued result (precision, recall and F1 of both classes, AUROC
    and accuracy all [0.0]) without raising whenever no evaluation step
    completed: on an empty loader, when every batch fails in the model, and
    in general when [step_count] is 0 after the loop; no metric-library
    call is made on that path.  When steps completed but no prediction was
    collected, the same zero values are stored next to the loss and, with
    [verbose] off, returned. *)
Theorem C4_sentence_model_zero_sentinel
    (logit_row : Type) (argmax : logit_row -> Z)
    (criterion : list logit_row -> list Z -> result Q)
    (lib : metrics_lib) (verbose : bool) :
  evaluate_sentence_model argmax criterion lib [] verbose = Ok (zero_results None)
  /\ (forall test_loader,
        step_count (batches_loop argmax criterion test_loader initial) = 0 ->
        evaluate_sentence_model argmax criterion lib test_loader verbose
        = Ok (zero_results None))
  /\ (forall test_loader,
        (forall b, In (Ok b) test_loader -> exists e, logits_list b = Err e) ->
        evaluate_sentence_model argmax criterion lib test_loader verbose
        = Ok (zero_results None))
  /\ (forall st,
        step_count st <> 0 -> all_preds st = [] ->
        finalize lib st false
        = Ok (zero_results (Some (total_loss st / inject_Z (step_count st))%Q)))
  /\ supported (zero_results None) = zero_prf
  /\ hallucinated (zero_results None) = zero_prf
  /\ auroc (zero_results None) = Fin 0.
Proof.
  split; [| split; [| split; [| split]]].
  - reflexivity.
  - intros test_loader H. unfold evaluate_sentence_model, finalize.
    rewrite H. reflexivity.
  - intros test_loader H. unfold evaluate_sentence_model.
    rewrite (all_failed_no_step argmax criterion test_loader H). reflexivity.
  - intros st Hs Hp. unfold finalize, computed_metrics.
    destruct (step_count st =? 0) eqn:E; [apply Z.eqb_eq in E; contradiction |].
    rewrite Hp. reflexivity.
  - repeat split; reflexivity.
Qed.

Lemma C4_sentence_model_zero_sentinel_witness :
  evaluate_sentence_model (fun z : Z => z) Samples.criterion_stub
                          (sklearn Samples.render_stub)
                          Samples.failing_loader true
  = Ok (zero_results None).
Proof.
  destruct (C4_sentence_model_zero_sentinel (fun z : Z => z)
              Samples.criterion_stub (sklearn Samples.render_stub) true)
    as (_ & Hstep & _).
  apply Hstep. reflexivity.
Defined.

(** C4 as stated fails for the other evaluation functions: they have no
    guard, pass the empty lists to the metric library, and the call
    for the ROC curve rejects an empty [y_true]. *)
Lemma C4_counterexample_empty_corpus_raises :
  evaluate_detector_example_level (sklearn Samples.render_stub)
                                  Samples.fixed_detector [] false
  = Err (ValueError pos_label_unspecified)
  /\ evaluate_detector_example_level_batch (sklearn Samples.render_stub)
                                           Samples.fixed_detector [] 10 false
     = Err (ValueError pos_label_unspecified)
  /\ evaluate_model (sklearn Samples.render_stub) [] false
     = Err (ValueError pos_label_unspecified)
  /\ evaluate_model_example_level (sklearn Samples.render_stub) [] false
     = Err (ValueError pos_label_unspecified).
Proof.
  repeat split; reflexivity.
Qed.

End EmptyCorpusFacts.

(* ===================================================================== *)
(** * The batched evaluator *)
(* ===================================================================== *)

Module BatchFacts.

Import Detectors Metrics Evaluator.

(** The first start index of a non-empty corpus. *)
Lemma range_starts_at_zero (n step : Z) :
  0 < n -> 0 < step -> exists rest, range 0 n step = Ok (0 :: rest).
Proof.
  intros Hn Hs. unfold range.
  destruct (step =? 0) eqn:E; [apply Z.eqb_eq in E; lia |].
  destruct (0 <? step) eqn:E1; [| apply Z.ltb_ge in E1; lia].
  destruct (0 <? n) eqn:E2; [| apply Z.ltb_ge in E2; lia].
  assert (H : 0 <= (n - 0 - 1) / step) by (apply Z.div_pos; lia).
  destruct (Z.to_nat ((n - 0 - 1) / step + 1)) as [| k] eqn:Ek; [lia |].
  simpl. eexists. reflexivity.
Qed.

(** On any non-empty corpus and any positive batch size, the batched
    evaluator raises when the detector is the facade. *)
Lemma facade_batch_raises (lib : metrics_lib) (inner : detector answer_arg)
    (samples : list sample) (batch_size : Z) (verbose : bool) :
  samples <> [] -> 0 < batch_size ->
  evaluate_detector_example_level_batch lib (facade inner) samples
                                        batch_size verbose
  = Err (AttributeError no_batch_method).
Proof.
  intros Hs Hb.
  unfold evaluate_detector_example_level_batch, accumulate_example_level_batch.
  destruct (range_starts_at_zero (n := Z.of_nat (List.length samples)) (step := batch_size))
    as (rest & ->); [destruct samples; [contradiction | simpl; lia] | exact Hb |].
  reflexivity.
Qed.

(** C6.  The batched evaluator is meant to accumulate what the single-pass
    evaluator accumulates.  With the detector the repository defines, the
    facade, it raises on the first batch: the facade has no
    [predict_prompt_batch].  On the one-sample corpus below and the default
    batch size the batched run raises [AttributeError] whatever the wrapped
    detector is, while the single-pass run accumulates label 1 and
    prediction 1. *)
Theorem C6_batched_evaluator_missing_method
    (lib : metrics_lib) (inner : detector answer_arg) (verbose : bool) :
  evaluate_detector_example_level_batch lib (facade inner)
                                        [Samples.sample_2_8] 10 verbose
  = Err (AttributeError no_batch_method)
  /\ accumulate_example_level_batch (facade inner) [Samples.sample_2_8] 10
     = Err (AttributeError no_batch_method)
  /\ accumulate_example_level (facade Samples.fixed_detector) [Samples.sample_2_8]
     = Ok ([1], [1])
  /\ predict_prompt_batch (facade inner) = None.
Proof.
  repeat split; reflexivity.
Qed.

(** *** A detector that does offer a batch method *)

Lemma foldM_app {A S : Type} (body : S -> A -> result S) (l1 l2 : list A) :
  forall s, foldM body (l1 ++ l2) s = bind (foldM body l1 s) (foldM body l2).
Proof.
  induction l1 as [| x l1 IH]; intros s; simpl.
  - reflexivity.
  - destruct (body s x) as [s' | e]; simpl; [apply IH | reflexivity].
Qed.

Lemma mapM_length {A B : Type} (f : A -> result B) (l : list A) :
  forall ys, mapM f l = Ok ys -> List.length ys = List.length l.
Proof.
  induction l as [| x l IH]; intros ys H; simpl in *.
  - inversion H. reflexivity.
  - destruct (f x) as [y | e]; simpl in *; [| discriminate].
    destruct (mapM f l) as [ys' | e]; simpl in *; [| discriminate].
    inversion H. simpl. rewrite (IH ys' eq_refl). reflexivity.
Qed.

(** The single-pass loop in terms of the predictions alone. *)
Lemma single_pass_fold (detector : Detectors.detector answer_arg)
    (l : list sample) :
  forall acc,
    foldM (example_level_step detector) l acc
    = (preds <- mapM (example_prediction detector) l ;;
       Ok (fst acc ++ map (fun s => flag (labels s)) l,
           snd acc ++ map prediction_flag preds)).
Proof.
  induction l as [| s l IH]; intros acc; simpl.
  - rewrite !app_nil_r. destruct acc; reflexivity.
  - unfold example_level_step at 1. unfold example_prediction at 1.
    destruct (predict_prompt detector (prompt s) (answer_of s) "spans")
      as [r | e]; simpl; [| reflexivity].
    rewrite IH. simpl.
    destruct (mapM (example_prediction detector) l) as [rs | e]; simpl;
      [| reflexivity].
    rewrite <- !app_assoc. reflexivity.
Qed.

Lemma zip_fold (l : list sample) :
  forall (preds : list prediction) (acc : list Z * list Z),
    List.length preds = List.length l ->
    fold_left zip_step (combine l preds) acc
    = (fst acc ++ map (fun s => flag (labels s)) l,
       snd acc ++ map prediction_flag preds).
Proof.
  induction l as [| s l IH]; intros preds acc H.
  - destruct preds; [| discriminate]. simpl. rewrite !app_nil_r.
    destruct acc; reflexivity.
  - destruct preds as [| r preds]; [discriminate |]. simpl.
    rewrite IH by (simpl in H; lia). unfold zip_step. simpl.
    rewrite <- !app_assoc. reflexivity.
Qed.

Lemma batch_call_pointwise (detector : Detectors.detector answer_arg)
    (l : list sample) :
  mapM (fun pa => predict_prompt detector (fst pa) (snd pa) "spans"%string)
       (combine (map prompt l) (map answer_of l))
  = mapM (example_prediction detector) l.
Proof.
  induction l as [| s l IH]; simpl; [reflexivity |].
  rewrite IH. reflexivity.
Qed.

Lemma firstn_all_min {A : Type} (l : list A) (k : nat) :
  firstn (Nat.min k (List.length l)) l = firstn k l.
Proof.
  revert k. induction l as [| x l IH]; intros k.
  - rewrite Nat.min_0_r. destruct k; reflexivity.
  - destruct k as [| k]; [reflexivity |]. simpl. f_equal. apply IH.
Qed.

(** [samples[i : i + batch_size]] for a start inside the range. *)
Lemma slice_chunk {A : Type} (xs : list A) (i b : nat) :
  slice_list xs (Z.of_nat i) (Z.of_nat i + Z.of_nat b) = firstn b (skipn i xs).
Proof.
  unfold slice_list, clamp_index.
  destruct (Z.of_nat i <? 0) eqn:E1; [apply Z.ltb_lt in E1; lia |].
  destruct (Z.of_nat i + Z.of_nat b <? 0) eqn:E2; [apply Z.ltb_lt in E2; lia |].
  destruct (Nat.le_gt_cases (List.length xs) i) as [H | H].
  - rewrite (skipn_all2 xs H).
    replace (Z.to_nat (Z.min (Z.of_nat i) (Z.of_nat (List.length xs))))
      with (List.length xs) by lia.
    rewrite skipn_all. rewrite !firstn_nil. reflexivity.
  - replace (Z.to_nat (Z.min (Z.of_nat i) (Z.of_nat (List.length xs)))) with i by lia.
    replace (Z.to_nat (Z.min (Z.of_nat i + Z.of_nat b) (Z.of_nat (List.length xs))
                       - Z.min (Z.of_nat i) (Z.of_nat (List.length xs))))
      with (Nat.min b (List.length (skipn i xs)))
      by (rewrite length_skipn; lia).
    apply firstn_all_min.
Qed.

Lemma firstn_plus {A : Type} (l : list A) (b k : nat) :
  firstn (b + k) l = firstn b l ++ firstn k (skipn b l).
Proof.
  revert l. induction b as [| b IH]; intros l; simpl.
  - reflexivity.
  - destruct l as [| x l]; simpl.
    + rewrite firstn_nil. reflexivity.
    + f_equal. apply IH.
Qed.

Lemma skipn_skipn_add {A : Type} (l : list A) (a b : nat) :
  skipn b (skipn a l) = skipn (a + b) l.
Proof.
  revert l. induction a as [| a IH]; intros l; simpl.
  - reflexivity.
  - destruct l as [| x l]; simpl; [apply skipn_nil | apply IH].
Qed.

Section Batched.

Variable detector : Detectors.detector answer_arg.
Variable call : list string -> list answer_arg -> string -> result (list prediction).
Hypothesis has_batch : predict_prompt_batch detector = Some call.
Hypothesis call_pointwise :
  forall prompts answers output_format,
    call prompts answers output_format
    = mapM (fun pa => predict_prompt detector (fst pa) (snd pa) output_format)
           (combine prompts answers).

Variable samples : list sample.
Variable b : nat.

(** One batch is the single-pass loop over the samples of the batch. *)
Lemma batch_step_single (acc : list Z * list Z) (i : nat) :
  batch_step detector samples (Z.of_nat b) acc (Z.of_nat i)
  = foldM (example_level_step detector) (firstn b (skipn i samples)) acc.
Proof.
  unfold batch_step. rewrite has_batch, slice_chunk, call_pointwise.
  rewrite batch_call_pointwise, single_pass_fold.
  destruct (mapM (example_prediction detector) (firstn b (skipn i samples)))
    as [preds | e] eqn:E; simpl; [| reflexivity].
  rewrite zip_fold by (apply (mapM_length _ _ E)). reflexivity.
Qed.

(** [m] batches from sample [off] on are the single-pass loop over the
    next [m * b] samples. *)
Lemma batches_single (m : nat) :
  forall (off : nat) (acc : list Z * list Z),
    foldM (batch_step detector samples (Z.of_nat b))
          (map (fun k => Z.of_nat off + Z.of_nat k * Z.of_nat b) (seq 0 m)) acc
    = foldM (example_level_step detector)
            (firstn (m * b) (skipn off samples)) acc.
Proof.
  induction m as [| m IH]; intros off acc.
  - reflexivity.
  - rewrite <- cons_seq, <- seq_shift. rewrite map_cons, map_map. cbn [foldM].
    replace (Z.of_nat off + Z.of_nat 0 * Z.of_nat b) with (Z.of_nat off) by lia.
    rewrite batch_step_single.
    replace (S m * b)%nat with (b + m * b)%nat by lia.
    rewrite firstn_plus, foldM_app, skipn_skipn_add.
    destruct (foldM (example_level_step detector) (firstn b (skipn off samples)) acc)
      as [acc' | e]; cbn [bind]; [| reflexivity].
    rewrite <- (IH (off + b)%nat acc').
    f_equal. apply map_ext. intros k.
    rewrite ?Nat2Z.inj_succ, ?Nat2Z.inj_add. unfold Z.succ. ring.
Qed.

End Batched.

(** For a detector object that offers a pointwise batch method, the batched
    loop accumulates exactly what the single-pass loop accumulates, for
    every positive batch size, and the two evaluators return the same
    result. *)
Lemma batch_matches_single (lib : metrics_lib)
    (detector : Detectors.detector answer_arg) (samples : list sample)
    (batch_size : Z) (verbose : bool) :
  pointwise_batch detector -> 1 <= batch_size ->
  accumulate_example_level_batch detector samples batch_size
  = accumulate_example_level detector samples
  /\ evaluate_detector_example_level_batch lib detector samples batch_size verbose
     = evaluate_detector_example_level lib detector samples verbose.
Proof.
  intros (call & Hb & Hc) Hs.
  remember (Z.to_nat batch_size) as b eqn:Eb.
  assert (Ebs : batch_size = Z.of_nat b) by lia.
  assert (Hpos : (0 < b)%nat) by lia.
  clear Eb. subst batch_size.
  assert (Hacc : accumulate_example_level_batch detector samples (Z.of_nat b)
                 = accumulate_example_level detector samples).
  { unfold accumulate_example_level_batch, accumulate_example_level, range.
    destruct (Z.of_nat b =? 0) eqn:E0; [apply Z.eqb_eq in E0; lia |].
    destruct (0 <? Z.of_nat b) eqn:E1; [| apply Z.ltb_ge in E1; lia].
    cbn [bind].
    set (n := Z.of_nat (List.length samples)).
    set (len := if 0 <? n then (n - 0 - 1) / Z.of_nat b + 1 else 0).
    assert (Hlen : 0 <= len /\ n <= len * Z.of_nat b).
    { unfold len. destruct (0 <? n) eqn:En.
      - apply Z.ltb_lt in En.
        pose proof (Z.div_pos (n - 0 - 1) (Z.of_nat b) ltac:(lia) ltac:(lia)).
        pose proof (Z.mul_succ_div_gt (n - 0 - 1) (Z.of_nat b) ltac:(lia)).
        split; [lia |]. unfold Z.succ in *. nia.
      - apply Z.ltb_ge in En. lia. }
    pose proof (@batches_single detector call Hb Hc samples b (Z.to_nat len)
                  0%nat ([], [])) as Hbs.
    change (Z.of_nat 0) with 0 in Hbs. rewrite Hbs.
    simpl skipn. rewrite firstn_all2; [reflexivity |].
    unfold n in Hlen. nia. }
  split; [exact Hacc |].
  unfold evaluate_detector_example_level_batch, evaluate_detector_example_level.
  rewrite Hacc. reflexivity.
Qed.

End BatchFacts.

(* ===================================================================== *)
(** * Further properties of the span builder *)
(* ===================================================================== *)

Module SpanBuilderMore.

Import SpanBuilder SpanBuilderFacts.

(** *** The rows of the answer region *)

Lemma labelled_rows (ast : nat) (ps : list position) :
  forall k : nat,
    map (fun lp => row (fst lp) (snd lp))
        (combine (map (fun i => if (i <? ast)%nat then IGNORE else 0)
                      (seq k (List.length ps))) ps)
    = map (row IGNORE) (firstn (ast - k) ps)
      ++ map (row 0) (skipn (ast - k) ps).
Proof.
  induction ps as [| p ps IH]; intros k.
  - simpl. rewrite firstn_nil, skipn_nil. reflexivity.
  - cbn [List.length seq map combine fst snd]. rewrite IH.
    destruct (k <? ast)%nat eqn:E.
    + apply Nat.ltb_lt in E.
      replace (ast - k)%nat with (S (ast - S k)) by lia. reflexivity.
    + apply Nat.ltb_ge in E.
      replace (ast - k)%nat with 0%nat by lia.
      replace (ast - S k)%nat with 0%nat by lia. reflexivity.
Qed.

Lemma rows_split (e : encoded) :
  rows e
  = map (row IGNORE) (firstn (answer_start_token e) (positions e))
    ++ map (row 0) (skipn (answer_start_token e) (positions e)).
Proof.
  unfold rows, make_labels.
  rewrite (labelled_rows (answer_start_token e) (positions e) 0).
  rewrite Nat.sub_0_r. reflexivity.
Qed.

Lemma rows_answer_region (e : encoded) :
  skipn (answer_start_token e) (rows e)
  = map (row 0) (skipn (answer_start_token e) (positions e)).
Proof.
  rewrite rows_split.
  destruct (Nat.le_gt_cases (answer_start_token e) (List.length (positions e)))
    as [H | H].
  - rewrite skipn_app, length_map, length_firstn.
    replace (answer_start_token e
             - Nat.min (answer_start_token e) (List.length (positions e)))%nat
      with 0%nat by lia.
    rewrite skipn_all2 by (rewrite length_map, length_firstn; lia).
    reflexivity.
  - rewrite (skipn_all2 (positions e)) by lia.
    rewrite skipn_all2; [reflexivity |].
    rewrite length_app, !length_map, length_firstn. simpl. lia.
Qed.

Lemma filter_none {A : Type} (f : A -> bool) (l : list A) :
  (forall x, In x l -> f x = false) -> filter f l = [].
Proof.
  induction l as [| x l IH]; intros H; simpl; [reflexivity |].
  rewrite (H x (or_introl eq_refl)). apply IH.
  intros y Hy. apply H. right. exact Hy.
Qed.

Lemma filter_all {A : Type} (f : A -> bool) (l : list A) :
  (forall x, In x l -> f x = true) -> filter f l = l.
Proof.
  induction l as [| x l IH]; intros H; simpl; [reflexivity |].
  rewrite (H x (or_introl eq_refl)). f_equal. apply IH.
  intros y Hy. apply H. right. exact Hy.
Qed.

(** X1.  The ["tokens"] output has exactly one dict per position from
    [answer_start_token] on, in order, carrying the decoded token, the
    unmasked argmax and the class-1 probability; no context position
    appears, and a start index past the end gives the empty list. *)
Theorem tokens_output_is_answer_region (e : encoded) :
  predict_tokens e
  = map (fun p => {| tp_token := pos_token p;
                     tp_pred := pos_argmax p;
                     tp_prob := pos_prob1 p |})
        (skipn (answer_start_token e) (positions e))
  /\ List.length (predict_tokens e)
     = (List.length (positions e) - answer_start_token e)%nat.
Proof.
  assert (H : predict_tokens e
              = map (fun p => {| tp_token := pos_token p;
                                 tp_pred := pos_argmax p;
                                 tp_prob := pos_prob1 p |})
                    (skipn (answer_start_token e) (positions e))).
  { unfold predict_tokens. rewrite rows_split, filter_app.
    rewrite filter_none, filter_all.
    - simpl. rewrite map_map. reflexivity.
    - intros t Ht. apply in_map_iff in Ht. destruct Ht as (p & <- & _).
      reflexivity.
    - intros t Ht. apply in_map_iff in Ht. destruct Ht as (p & <- & _).
      reflexivity. }
  split; [exact H |].
  rewrite H, length_map, length_skipn. reflexivity.
Qed.

(** *** How the loop composes *)

Lemma hallucinated_split (t : token) :
  hallucinated_token t = true <-> eligible t = true /\ token_pred t = 1.
Proof.
  unfold hallucinated_token. rewrite andb_true_iff, Z.eqb_eq. tauto.
Qed.

Lemma not_hallucinated (t : token) :
  hallucinated_token t = false ->
  eligible t = false \/ (eligible t = true /\ token_pred t <> 1).
Proof.
  unfold hallucinated_token. destruct (eligible t); simpl; [| auto].
  intros H. right. split; [reflexivity |]. apply Z.eqb_neq. exact H.
Qed.

(** A kept token of another class closes whatever is open. *)
Lemma step_closes (answer : string) (off : Z) (st : builder) (t : token) :
  eligible t = true -> token_pred t <> 1 ->
  span_step answer off st t
  = {| spans := finish answer st; current_span := None |}.
Proof.
  intros He Hp. destruct (eligible_split _ He) as [H1 H2].
  apply Z.eqb_neq in Hp. unfold span_step, finish. rewrite H1, H2, Hp.
  destruct st as [sp [cs |]]; reflexivity.
Qed.

Lemma step_prefix (answer : string) (off : Z) (p : list span)
    (c : option open_span) (t : token) :
  span_step answer off {| spans := p; current_span := c |} t
  = {| spans :=
         p ++ spans (span_step answer off {| spans := []; current_span := c |} t);
       current_span :=
         current_span (span_step answer off {| spans := []; current_span := c |} t) |}.
Proof.
  unfold span_step.
  destruct (label t =? IGNORE); [simpl; rewrite app_nil_r; reflexivity |].
  destruct (token_start t =? token_end t);
    [simpl; rewrite app_nil_r; reflexivity |].
  destruct (token_pred t =? 1); destruct c as [cs |]; simpl;
    rewrite ?app_nil_r; reflexivity.
Qed.

Lemma run_prefix (answer : string) (off : Z) (toks : list token) :
  forall (p : list span) (c : option open_span),
    run answer off toks {| spans := p; current_span := c |}
    = {| spans :=
           p ++ spans (run answer off toks {| spans := []; current_span := c |});
         current_span :=
           current_span (run answer off toks {| spans := []; current_span := c |}) |}.
Proof.
  induction toks as [| t toks IH]; intros p c.
  - simpl. rewrite app_nil_r. reflexivity.
  - unfold run in *. cbn [fold_left].
    rewrite step_prefix.
    destruct (span_step answer off {| spans := []; current_span := c |} t)
      as [q c'] eqn:E. cbn [spans current_span].
    rewrite (IH (p ++ q) c'), (IH q c'). cbn [spans current_span].
    rewrite app_assoc. reflexivity.
Qed.

(** X2.  A kept token that is not of class 1 separates the stream: the
    spans of the whole stream are the spans of what precedes it followed
    by the spans of what follows it, so two hallucinated runs around such
    a token are never merged. *)
Theorem supported_token_splits_stream (answer : string) (off : Z)
    (before after : list token) (t : token) :
  eligible t = true -> token_pred t <> 1 ->
  build_spans answer off (before ++ t :: after)
  = build_spans answer off before ++ build_spans answer off after.
Proof.
  intros He Hp. unfold build_spans at 1. unfold run.
  rewrite fold_left_app. cbn [fold_left].
  fold (run answer off before init).
  rewrite step_closes by assumption.
  fold (run answer off after
            {| spans := finish answer (run answer off before init);
               current_span := None |}).
  rewrite run_prefix. change {| spans := []; current_span := None |} with init.
  unfold build_spans.
  set (b := finish answer (run answer off before init)).
  unfold finish. cbn [spans current_span].
  destruct (current_span (run answer off after init));
    [rewrite app_assoc |]; reflexivity.
Qed.

Lemma supported_token_splits_stream_witness :
  build_spans Samples.answer_text 0 Samples.stream
  = build_spans Samples.answer_text 0 [Samples.tok_the; Samples.tok_cat]
    ++ build_spans Samples.answer_text 0 [Samples.tok_sep; Samples.tok_down].
Proof.
  apply (@supported_token_splits_stream Samples.answer_text 0
           [Samples.tok_the; Samples.tok_cat]
           [Samples.tok_sep; Samples.tok_down] Samples.tok_sat).
  - reflexivity.
  - discriminate.
Defined.

(** X3.  Tokens the loop skips (label [-100] or zero width) are
    transparent: removing them from the stream does not change the spans.
    In particular a zero-width special token inside a hallucinated run does
    not end the span. *)
Theorem skipped_tokens_transparent (answer : string) (off : Z)
    (toks : list token) :
  build_spans answer off toks = build_spans answer off (filter eligible toks).
Proof.
  unfold build_spans. f_equal. generalize init.
  induction toks as [| t toks IH]; intros st.
  - reflexivity.
  - unfold run in *. cbn [fold_left filter].
    destruct (eligible t) eqn:E.
    + cbn [fold_left]. apply IH.
    + rewrite step_ineligible by exact E. apply IH.
Qed.

(** *** One hallucinated run *)

Lemma fold_max_spec (l : list Q) :
  forall x : Q,
    In (fold_left Py.max l x) (x :: l)
    /\ (x <= fold_left Py.max l x)%Q
    /\ Forall (fun p => (p <= fold_left Py.max l x)%Q) l.
Proof.
  induction l as [| y l IH]; intros x.
  - simpl. repeat split; [left; reflexivity | apply Qle_refl | constructor].
  - cbn [fold_left]. destruct (IH (Py.max x y)) as (Hin & Hle & Hall).
    split; [| split].
    + destruct Hin as [Hm | Hm].
      * rewrite <- Hm.
        destruct (max_cases x y) as [E | E]; rewrite E;
          [left | right; left]; reflexivity.
      * right. right. exact Hm.
    + eapply Qle_trans; [apply max_ge_l | exact Hle].
    + constructor; [| exact Hall].
      eapply Qle_trans; [apply max_ge_r | exact Hle].
Qed.

Lemma last_map {A B : Type} (f : A -> B) (l : list A) (d : A) :
  last (map f l) (f d) = f (last l d).
Proof.
  induction l as [| x l IH]; [reflexivity |].
  destruct l as [| y l]; [reflexivity |]. exact IH.
Qed.

Lemma last_cons_default {A : Type} (l : list A) :
  forall x e : A, last (x :: l) e = last l x.
Proof.
  induction l as [| y l IH]; intros x e; [reflexivity |].
  change (last (x :: y :: l) e) with (last (y :: l) e).
  rewrite (IH y e), (IH y x). reflexivity.
Qed.

Lemma run_extends (answer : string) (off : Z) (ts : list token) :
  (forall u, In u ts -> hallucinated_token u = true) ->
  forall s e c,
    run answer off ts
        {| spans := [];
           current_span := Some {| os_start := s; os_end := e; os_confidence := c |} |}
    = {| spans := [];
         current_span :=
           Some {| os_start := s;
                   os_end := last (map (fun u => token_end u - off) ts) e;
                   os_confidence := fold_left Py.max (map prob1 ts) c |} |}.
Proof.
  induction ts as [| t ts IH]; intros Hall s e c.
  - reflexivity.
  - assert (Ht : hallucinated_token t = true) by (apply Hall; left; reflexivity).
    apply hallucinated_split in Ht. destruct Ht as [He Hp].
    destruct (eligible_split _ He) as [H1 H2].
    unfold run in *. cbn [fold_left map].
    unfold span_step at 2. rewrite H1, H2, Hp. cbn.
    rewrite IH by (intros u Hu; apply Hall; right; exact Hu).
    rewrite <- (last_cons_default (map (fun u => token_end u - off) ts)
                                  (token_end t - off) e).
    reflexivity.
Qed.

(** X4.  A run of hallucinated tokens with nothing in between gives one
    span: it starts at the first token's relative start, ends at the last
    token's relative end, carries [answer[start:end]] as text, and its
    confidence is the largest class-1 probability of the run (one of the
    run's probabilities, and no probability of the run exceeds it). *)
Theorem run_gives_one_span_with_max_confidence (answer : string) (off : Z)
    (t : token) (ts : list token) :
  (forall u, In u (t :: ts) -> hallucinated_token u = true) ->
  exists c : Q,
    build_spans answer off (t :: ts)
    = [ {| span_start := token_start t - off;
           span_end := token_end (last ts t) - off;
           span_confidence := Some c;
           span_text := slice answer (token_start t - off)
                              (token_end (last ts t) - off) |} ]
    /\ In c (map prob1 (t :: ts))
    /\ Forall (fun p => (p <= c)%Q) (map prob1 (t :: ts)).
Proof.
  intros Hall.
  assert (Ht : hallucinated_token t = true) by (apply Hall; left; reflexivity).
  apply hallucinated_split in Ht. destruct Ht as [He Hp].
  destruct (eligible_split _ He) as [H1 H2].
  exists (fold_left Py.max (map prob1 ts) (prob1 t)).
  destruct (fold_max_spec (map prob1 ts) (prob1 t)) as (Hin & Hle & Hf).
  split; [| split].
  - assert (Hstep : span_step answer off init t
                    = {| spans := [];
                         current_span :=
                           Some {| os_start := token_start t - off;
                                   os_end := token_end t - off;
                                   os_confidence := prob1 t |} |}).
    { unfold span_step. rewrite H1, H2, Hp. reflexivity. }
    assert (Hrest : forall u, In u ts -> hallucinated_token u = true)
      by (intros u Hu; apply Hall; right; exact Hu).
    pose proof (run_extends answer off ts Hrest (token_start t - off)
                            (token_end t - off) (prob1 t)) as Hr.
    unfold build_spans, run in *. cbn [fold_left]. rewrite Hstep, Hr.
    unfold finish, materialize. cbn [spans current_span os_start os_end
                                       os_confidence app].
    rewrite (last_map (fun u => token_end u - off)). reflexivity.
  - exact Hin.
  - constructor; assumption.
Qed.

Lemma run_gives_one_span_with_max_confidence_witness :
  exists c : Q,
    build_spans Samples.answer_text 0 [Samples.tok_the; Samples.tok_cat]
    = [mkSpan 0 7 (Some c) "The cat"]
    /\ In c [(6 # 10)%Q; (9 # 10)%Q]
    /\ Forall (fun p => (p <= c)%Q) [(6 # 10)%Q; (9 # 10)%Q].
Proof.
  apply (@run_gives_one_span_with_max_confidence Samples.answer_text 0
           Samples.tok_the [Samples.tok_cat]).
  intros u [<- | [<- | []]]; reflexivity.
Defined.

(** *** When the builder reports nothing *)

Lemma step_quiet (answer : string) (off : Z) (t : token) :
  hallucinated_token t = false -> span_step answer off init t = init.
Proof.
  intros H. destruct (not_hallucinated _ H) as [He | [He Hp]].
  - apply step_ineligible. exact He.
  - rewrite step_closes by assumption. reflexivity.
Qed.

Lemma step_keeps_something (answer : string) (off : Z) (st : builder) (t : token) :
  finish answer st <> [] -> finish answer (span_step answer off st t) <> [].
Proof.
  intros H. unfold span_step.
  destruct (label t =? IGNORE); [exact H |].
  destruct (token_start t =? token_end t); [exact H |].
  destruct st as [sp [cs |]]; destruct (token_pred t =? 1);
    unfold finish in *; cbn in *; try exact H.
  - intros E. apply app_eq_nil in E. destruct E as [_ E]. discriminate.
  - intros E. apply app_eq_nil in E. destruct E as [_ E]. discriminate.
Qed.

Lemma step_opens_something (answer : string) (off : Z) (st : builder) (t : token) :
  hallucinated_token t = true -> finish answer (span_step answer off st t) <> [].
Proof.
  intros Ht. apply hallucinated_split in Ht. destruct Ht as [He Hp].
  destruct (eligible_split _ He) as [H1 H2].
  unfold span_step. rewrite H1, H2, Hp.
  destruct st as [sp [cs |]]; unfold finish; cbn;
    intros E; apply app_eq_nil in E; destruct E as [_ E]; discriminate.
Qed.

Lemma run_keeps_something (answer : string) (off : Z) (toks : list token) :
  forall st, finish answer st <> [] ->
             finish answer (run answer off toks st) <> [].
Proof.
  induction toks as [| t toks IH]; intros st H; [exact H |].
  unfold run in *. cbn [fold_left]. apply IH. apply step_keeps_something. exact H.
Qed.

(** One hallucinated token is enough for a span. *)
Lemma build_spans_nil_quiet (answer : string) (off : Z) (toks : list token) :
  build_spans answer off toks = [] ->
  forall t, In t toks -> hallucinated_token t = false.
Proof.
  intros Hnil t Hin.
  destruct (hallucinated_token t) eqn:Ht; [| reflexivity]. exfalso.
  apply in_split in Hin. destruct Hin as (l1 & l2 & ->).
  apply hallucinated_split in Ht. destruct Ht as [He Hp].
  destruct (eligible_split _ He) as [H1 H2].
  revert Hnil. unfold build_spans, run. rewrite fold_left_app.
  cbn [fold_left]. apply run_keeps_something.
  apply step_opens_something. apply hallucinated_split. split; assumption.
Qed.

(** Without a hallucinated token the loop never leaves its first state. *)
Lemma quiet_build_spans_nil (answer : string) (off : Z) (toks : list token) :
  (forall t, In t toks -> hallucinated_token t = false) ->
  build_spans answer off toks = [].
Proof.
  intros Hall. unfold build_spans.
  assert (H : run answer off toks init = init).
  { induction toks as [| t toks IH]; [reflexivity |].
    unfold run in *. cbn [fold_left].
    rewrite step_quiet by (apply Hall; left; reflexivity).
    apply IH. intros u Hu. apply Hall. right. exact Hu. }
  rewrite H. reflexivity.
Qed.

(** X5.  The builder returns the empty list exactly when no kept token of
    the stream is predicted class 1; so an example is flagged as
    hallucinated by its spans exactly when some answer token is. *)
Theorem no_span_iff_no_hallucinated_token (answer : string) (off : Z)
    (toks : list token) :
  build_spans answer off toks = []
  <-> (forall t, In t toks -> hallucinated_token t = false).
Proof.
  split; [apply build_spans_nil_quiet | apply quiet_build_spans_nil].
Qed.

(** *** Where the fields of a span come from *)

Section Grounded.

Variable answer : string.
Variable off : Z.
Variable toks : list token.




End Grounded.





(** *** Spans are proper ranges *)








(** *** Spans cover the hallucinated tokens *)





End SpanBuilderMore.

(* ===================================================================== *)
(** * Further properties of the LLM labels *)
(* ===================================================================== *)

Module LLMMore.

Import LLMLabels LLMFacts.

Local Open Scope string_scope.

(** *** The text the regular expression extracts *)

Lemma upto_close_none (s : string) :
  upto_close s = None <-> contains_char "}" s = false.
Proof.
  induction s as [| c s IH]; simpl.
  - tauto.
  - destruct (Ascii.eqb c "}"); simpl.
    + split; discriminate.
    + destruct (upto_close s); simpl.
      * split; [discriminate |]. intros H. apply IH in H. discriminate.
      * tauto.
Qed.

Lemma upto_close_some (s m : string) :
  upto_close s = Some m ->
  exists body post,
    m = body ++ "}" /\ s = m ++ post /\ contains_char "}" body = false.
Proof.
  revert m. induction s as [| c s IH]; simpl; intros m H; [discriminate |].
  destruct (Ascii.eqb c "}") eqn:E.
  - apply Ascii.eqb_eq in E. subst c. inversion H; subst m.
    exists "", s. repeat split.
  - destruct (upto_close s) as [m' |]; simpl in H; [| discriminate].
    inversion H; subst m.
    destruct (IH m' eq_refl) as (body & post & -> & Hs & Hb).
    exists (String c body), post. simpl. rewrite E, Hb.
    repeat split. f_equal. exact Hs.
Qed.

Lemma search_braces_needs_close (s m : string) :
  search_braces s = Some m -> contains_char "}" s = true.
Proof.
  revert m. induction s as [| c s IH]; simpl; intros m H; [discriminate |].
  destruct (Ascii.eqb c "{").
  - destruct (upto_close s) as [m' |] eqn:E.
    + destruct (contains_char "}" s) eqn:Ec; [apply orb_true_r |].
      apply upto_close_none in Ec. congruence.
    + rewrite (IH m H). apply orb_true_r.
  - rewrite (IH m H). apply orb_true_r.
Qed.

Lemma search_braces_some (s m : string) :
  search_braces s = Some m ->
  exists pre body post,
    s = pre ++ m ++ post
    /\ m = String "{" (body ++ "}")
    /\ contains_char "{" pre = false
    /\ contains_char "}" body = false.
Proof.
  revert m. induction s as [| c s IH]; simpl; intros m H; [discriminate |].
  destruct (Ascii.eqb c "{") eqn:E.
  - apply Ascii.eqb_eq in E. subst c.
    destruct (upto_close s) as [m' |] eqn:Eu.
    + inversion H; subst m.
      destruct (upto_close_some _ Eu) as (body & post & -> & Hs & Hb).
      exists "", body, post. simpl. repeat split; [f_equal; exact Hs | exact Hb].
    + apply search_braces_needs_close in H.
      apply upto_close_none in Eu. congruence.
  - destruct (IH m H) as (pre & body & post & Hs & Hm & Hp & Hb).
    exists (String c pre), body, post. simpl. rewrite E, Hp.
    repeat split; [f_equal; exact Hs | exact Hm | exact Hb].
Qed.

Lemma string_app_assoc (s1 s2 s3 : string) :
  (s1 ++ s2) ++ s3 = s1 ++ s2 ++ s3.
Proof.
  induction s1 as [| c s1 IH]; simpl; [reflexivity | rewrite IH; reflexivity].
Qed.

Lemma contains_char_app (c : ascii) (s1 s2 : string) :
  contains_char c (s1 ++ s2) = contains_char c s1 || contains_char c s2.
Proof.
  induction s1 as [| d s1 IH]; simpl; [reflexivity |].
  rewrite IH, orb_assoc. reflexivity.
Qed.

Lemma search_braces_finds (pre mid post : string) :
  search_braces (pre ++ String "{" (mid ++ String "}" post)) <> None.
Proof.
  induction pre as [| c pre IH]; simpl.
  - destruct (upto_close (mid ++ String "}" post)) eqn:E; [discriminate |].
    apply upto_close_none in E. rewrite contains_char_app in E. simpl in E.
    rewrite orb_true_r in E. discriminate.
  - destruct (Ascii.eqb c "{"); [| exact IH].
    destruct (upto_close (pre ++ String "{" (mid ++ String "}" post))) eqn:E;
      [discriminate | exact IH].
Qed.

(** X8.  What [re.search(r"\{.*?\}", ...)] extracts: the match starts at
    the first opening brace of the response and ends at the first closing
    brace after it, so the matched text holds exactly one closing brace,
    its last character; and there is no match exactly when no opening
    brace is followed by a closing brace.  A hallucination string that
    itself contains a closing brace therefore cuts the JSON text short. *)
Theorem extracted_json_ends_at_first_closing_brace (s : string) :
  (forall m,
      search_braces s = Some m ->
      exists pre body post,
        s = pre ++ m ++ post
        /\ m = String "{" (body ++ "}")
        /\ contains_char "{" pre = false
        /\ contains_char "}" body = false)
  /\ (search_braces s = None
      <-> ~ exists pre mid post, s = pre ++ String "{" (mid ++ String "}" post)).
Proof.
  split; [intros m H; apply search_braces_some; exact H |].
  split.
  - intros H (pre & mid & post & ->). exact (search_braces_finds _ _ _ H).
  - intros H. destruct (search_braces s) as [m |] eqn:E; [| reflexivity].
    exfalso. apply H.
    destruct (search_braces_some _ E) as (pre & body & post & Hs & -> & _).
    exists pre, body, post. rewrite Hs. simpl.
    rewrite string_app_assoc. reflexivity.
Qed.

Lemma extracted_json_ends_at_first_closing_brace_witness :
  exists pre body post,
    "Sure: {a} and {b}" = pre ++ "{a}" ++ post
    /\ "{a}" = String "{" (body ++ "}")
    /\ contains_char "{" pre = false
    /\ contains_char "}" body = false.
Proof.
  apply (proj1 (extracted_json_ends_at_first_closing_brace "Sure: {a} and {b}")).
  reflexivity.
Defined.

(** *** Labels lie inside the answer *)

Lemma index_empty (s : string) : index 0 "" s = Some 0%nat.
Proof. destruct s; reflexivity. Qed.

Lemma substring_length_le (s : string) :
  forall n m : nat,
    (String.length (substring n m s) <= String.length s - n)%nat.
Proof.
  induction s as [| c s IH]; intros n m.
  - destruct n, m; simpl; lia.
  - destruct n as [| n].
    + destruct m as [| m]; simpl; [lia |].
      specialize (IH 0%nat m). lia.
    + simpl. apply IH.
Qed.

Lemma index_bound (h answer : string) (m : nat) :
  index 0 h answer = Some m ->
  (m + String.length h <= String.length answer)%nat.
Proof.
  intros H. destruct h as [| c h].
  - rewrite index_empty in H. inversion H. simpl. lia.
  - pose proof (index_correct1 _ _ _ _ H) as Hs.
    pose proof (substring_length_le answer m (String.length (String c h))) as Hl.
    rewrite Hs in Hl. simpl in *. lia.
Qed.

Lemma label_of_in_bounds (answer h : string) :
  Forall (label_in_bounds answer) (label_of answer h).
Proof.
  unfold label_of, search_literal.
  destruct (index 0 h answer) as [m |] eqn:E; constructor; [| constructor].
  pose proof (index_bound _ _ E) as Hb.
  unfold label_in_bounds. cbn [span_start span_end span_confidence span_text].
  repeat split; try lia.
  rewrite Nat2Z.inj_add.
  rewrite <- (Nat2Z.inj_add m), slice_substring.
  apply (index_correct1 _ _ _ _ E).
Qed.

Lemma fold_ok_all_str (answer : string) (items : list pyval) :
  forall acc out,
    foldM (label_step answer) items acc = Ok out ->
    exists hs, items = map PStr hs.
Proof.
  induction items as [| v items IH]; intros acc out H.
  - exists []. reflexivity.
  - cbn [foldM] in H. destruct v; try discriminate.
    rewrite label_step_str in H. cbn [bind] in H.
    destruct (IH _ _ H) as (hs & ->). exists (s :: hs). reflexivity.
Qed.

Lemma fold_non_str (answer : string) (items : list pyval) :
  forallb is_str items = false ->
  forall acc, foldM (label_step answer) items acc = Err (TypeError "expected str").
Proof.
  induction items as [| v items IH]; intros H acc; [discriminate |].
  cbn [forallb] in H. cbn [foldM].
  destruct v; try reflexivity.
  rewrite label_step_str. cbn [bind]. apply IH. exact H.
Qed.

Lemma is_str_map (hs : list string) : forallb is_str (map PStr hs) = true.
Proof. induction hs; simpl; auto. Qed.

Lemma chars_strings (s : string) : exists hs, chars s = map PStr hs.
Proof.
  induction s as [| c s (hs & IH)]; simpl.
  - exists []. reflexivity.
  - exists (String c "" :: hs). rewrite IH. reflexivity.
Qed.

Lemma flat_labels_in_bounds (answer : string) (hs : list string) :
  Forall (label_in_bounds answer) (flat_map (label_of answer) hs).
Proof.
  induction hs as [| h hs IH]; simpl; [constructor |].
  apply Forall_app. split; [apply label_of_in_bounds | exact IH].
Qed.

Lemma flat_labels_length (answer : string) (hs : list string) :
  (List.length (flat_map (label_of answer) hs) <= List.length hs)%nat.
Proof.
  induction hs as [| h hs IH]; simpl; [lia |].
  rewrite length_app. unfold label_of at 1.
  destruct (search_literal h answer); simpl; lia.
Qed.

Lemma create_labels_in_bounds (answer : string) (v : pyval) (out : list span) :
  create_labels answer v = Ok out -> Forall (label_in_bounds answer) out.
Proof.
  unfold create_labels. intros H.
  destruct (getitem v "hallucination list") as [hals | e]; [| discriminate].
  cbn [bind] in H.
  destruct (iterate hals) as [items | e]; [| discriminate].
  cbn [bind] in H.
  destruct (fold_ok_all_str _ _ _ H) as (hs & ->).
  rewrite fold_labels in H. inversion H. simpl.
  apply flat_labels_in_bounds.
Qed.

(** X9.  Whatever the model answers and whatever [json.loads] returns,
    every label that [_create_labels] or the baseline's [create_labels]
    returns lies inside the answer ([0 <= start <= end <= len(answer)]),
    has no confidence, and [answer[start:end]] is its text. *)
Theorem llm_labels_lie_inside_answer
    (json_loads : string -> result pyval) (llm_content answer : string)
    (v : pyval) (out : list span) :
  (_create_labels json_loads llm_content answer = Ok out ->
   Forall (label_in_bounds answer) out)
  /\ (create_labels answer v = Ok out -> Forall (label_in_bounds answer) out)
  /\ (create_sample_baseline_labels json_loads llm_content answer = Ok out ->
      Forall (label_in_bounds answer) out).
Proof.
  split; [| split].
  - unfold _create_labels.
    destruct (search_braces llm_content) as [text |]; [| discriminate].
    destruct (json_loads text) as [w | e].
    + apply create_labels_in_bounds.
    + destruct e; try discriminate. intros H. inversion H. constructor.
  - apply create_labels_in_bounds.
  - unfold create_sample_baseline_labels.
    destruct (search_braces llm_content) as [text |]; [| discriminate].
    destruct (json_loads text) as [w | e].
    + apply create_labels_in_bounds.
    + destruct e; try discriminate.
Qed.

Lemma llm_labels_lie_inside_answer_witness :
  Forall (label_in_bounds Samples.llm_answer) [Samples.span_cat; Samples.span_cat].
Proof.
  apply (proj1 (@llm_labels_lie_inside_answer Samples.json_stub "{x}"
                  Samples.llm_answer PNone [Samples.span_cat; Samples.span_cat])).
  reflexivity.
Defined.

(** X10.  The loop over a parsed hallucination list returns exactly when
    every item of the list is a string, with at most one label per item;
    a single item of another type raises [TypeError] and the labels found
    before it are lost. *)
Theorem labels_returned_iff_all_items_strings
    (answer : string) (kvs : list (string * pyval)) (items : list pyval) :
  dict_get kvs "hallucination list" = Some (PList items) ->
  (forallb is_str items = true ->
   exists out,
     create_labels answer (PDict kvs) = Ok out
     /\ (List.length out <= List.length items)%nat)
  /\ (forallb is_str items = false ->
      create_labels answer (PDict kvs) = Err (TypeError "expected str")).
Proof.
  intros Hd. unfold create_labels, getitem. rewrite Hd. cbn [bind iterate].
  split.
  - intros H.
    assert (Hs : exists hs, items = map PStr hs).
    { clear Hd. induction items as [| v items IH].
      - exists []. reflexivity.
      - cbn [forallb] in H. apply andb_true_iff in H. destruct H as [Hv H].
        destruct v; try discriminate.
        destruct (IH H) as (hs & ->). exists (s :: hs). reflexivity. }
    destruct Hs as (hs & ->).
    rewrite fold_labels. eexists. split; [reflexivity |].
    simpl. rewrite length_map. apply flat_labels_length.
  - intros H. apply fold_non_str. exact H.
Qed.

Lemma labels_returned_iff_all_items_strings_witness :
  create_labels "a cat" (PDict [("hallucination list", PList [PStr "cat"; PInt 3])])
  = Err (TypeError "expected str").
Proof.
  apply (@labels_returned_iff_all_items_strings "a cat"
           [("hallucination list", PList [PStr "cat"; PInt 3])]
           [PStr "cat"; PInt 3] eq_refl).
  reflexivity.
Defined.

(** X11.  [create_sample_baseline] obtains labels only from a response
    whose brace-delimited text [json.loads] decoded: its [except] branch
    never yields labels, because [create_labels] is then called on the
    undecoded text and raises [TypeError]. *)
Theorem baseline_labels_need_decoded_json
    (json_loads : string -> result pyval) (chat_response answer : string) :
  (forall out,
      create_sample_baseline_labels json_loads chat_response answer = Ok out ->
      exists text v,
        search_braces chat_response = Some text
        /\ json_loads text = Ok v
        /\ create_labels answer v = Ok out)
  /\ (forall text,
        search_braces chat_response = Some text ->
        json_loads text = Err JSONDecodeError ->
        create_sample_baseline_labels json_loads chat_response answer
        = Err (TypeError "string indices must be integers")).
Proof.
  unfold create_sample_baseline_labels. split.
  - intros out H.
    destruct (search_braces chat_response) as [text |]; [| discriminate].
    destruct (json_loads text) as [v | e] eqn:E.
    + exists text, v. auto.
    + destruct e; discriminate.
  - intros text Hs Hj. rewrite Hs, Hj. reflexivity.
Qed.

Lemma baseline_labels_need_decoded_json_witness :
  create_sample_baseline_labels (fun _ => Err JSONDecodeError) "{oops}" "answer"
  = Err (TypeError "string indices must be integers").
Proof.
  apply (proj2 (baseline_labels_need_decoded_json
                  (fun _ => Err JSONDecodeError) "{oops}" "answer") "{oops}");
    reflexivity.
Defined.

End LLMMore.

(* ===================================================================== *)
(** * Further properties of the evaluation loops *)
(* ===================================================================== *)

Module EvaluatorMore.

Import SpanBuilder Detectors Metrics Evaluator EvaluatorFacts.

(** *** Token-level accumulation *)

Lemma accumulate_model_from (dataloader : list batch) :
  forall acc : list Z * list Z,
    fold_left
      (fun acc b =>
         (fst acc ++ map et_pred (masked b), snd acc ++ map et_label (masked b)))
      dataloader acc
    = (fst acc ++ map et_pred (filter valid (List.concat (map (@List.concat etoken) dataloader))),
       snd acc ++ map et_label (filter valid (List.concat (map (@List.concat etoken) dataloader)))).
Proof.
  induction dataloader as [| b d IH]; intros acc; simpl.
  - rewrite !app_nil_r. destruct acc; reflexivity.
  - rewrite IH. simpl. unfold masked.
    rewrite filter_app, !map_app, <- !app_assoc. reflexivity.
Qed.

(** X12.  [evaluate_model] scores exactly the tokens whose gold label is
    not [-100], in corpus order (batch by batch, row by row): the two
    accumulated lists are the predictions and the labels of those tokens,
    so they have the same length and no ignored label reaches the
    metrics. *)
Theorem token_level_scores_only_labelled_tokens (dataloader : list batch) :
  let kept := filter valid (List.concat (map (@List.concat etoken) dataloader)) in
  accumulate_model dataloader = (map et_pred kept, map et_label kept)
  /\ List.length (fst (accumulate_model dataloader))
     = List.length (snd (accumulate_model dataloader))
  /\ Forall (fun y => y <> -100) (snd (accumulate_model dataloader)).
Proof.
  intros kept.
  assert (H : accumulate_model dataloader = (map et_pred kept, map et_label kept)).
  { unfold accumulate_model. rewrite accumulate_model_from. reflexivity. }
  rewrite H. cbn [fst snd]. split; [reflexivity |]. split.
  - rewrite !length_map. reflexivity.
  - apply Forall_map. apply Forall_forall. intros t Ht.
    apply filter_In in Ht. destruct Ht as [_ Hv].
    unfold valid in Hv. apply negb_true_iff in Hv. apply Z.eqb_neq in Hv.
    exact Hv.
Qed.

(** *** The example score *)

(** X13.  For an example with at least one labelled token, the score
    handed to the ROC computation is the class-1 probability of one of its
    labelled tokens and no labelled token has a larger one; ignored tokens
    never contribute to it. *)
Theorem example_score_is_max_over_labelled_tokens (ex : example) :
  filter valid ex <> [] ->
  In (snd (example_result ex)) (map et_prob1 (filter valid ex))
  /\ Forall (fun p => (p <= snd (example_result ex))%Q)
            (map et_prob1 (filter valid ex)).
Proof.
  intros H. unfold example_result.
  destruct (filter valid ex) as [| t rest]; [contradiction |].
  cbn [snd map]. unfold max_of.
  destruct (SpanBuilderMore.fold_max_spec (map et_prob1 rest) (et_prob1 t))
    as (Hin & Hle & Hf).
  split; [exact Hin | constructor; assumption].
Qed.

Lemma example_score_is_max_over_labelled_tokens_witness :
  In (snd (example_result Samples.missed_example))
     [(1 # 10)%Q; (2 # 10)%Q; (4 # 10)%Q; (3 # 10)%Q].
Proof.
  apply (proj1 (@example_score_is_max_over_labelled_tokens
                  Samples.missed_example ltac:(discriminate))).
Defined.

(** *** Spans and the example label *)

(** X14.  With the transformer detector, an example is predicted
    hallucinated by the span-based evaluators exactly when some position
    of the answer region has non-zero width and argmax 1. *)
Theorem span_flag_iff_answer_token_hallucinated (answer : string) (e : encoded) :
  prediction_flag (Spans (predict_spans answer e)) = 1
  <-> exists p,
        In p (skipn (answer_start_token e) (positions e))
        /\ pos_start p <> pos_end p
        /\ pos_argmax p = 1.
Proof.
  cbn [prediction_flag].
  destruct (flag_spec (predict_spans answer e)) as [H1 _]. rewrite H1.
  unfold predict_spans. rewrite SpanBuilderMore.rows_answer_region.
  split.
  - intros Hne.
    destruct (existsb hallucinated_token
                (map (row 0) (skipn (answer_start_token e) (positions e))))
      eqn:E.
    + apply existsb_exists in E. destruct E as (t & Ht & Hh).
      apply in_map_iff in Ht. destruct Ht as (p & <- & Hp).
      exists p. split; [exact Hp |].
      apply SpanBuilderMore.hallucinated_split in Hh. destruct Hh as [He Hpr].
      destruct (SpanBuilderFacts.eligible_split _ He) as [_ H2].
      cbn in H2, Hpr. apply Z.eqb_neq in H2. split; assumption.
    + exfalso. apply Hne.
      apply SpanBuilderMore.quiet_build_spans_nil.
      intros t Ht. destruct (hallucinated_token t) eqn:Eh; [| reflexivity].
      assert (existsb hallucinated_token
                (map (row 0) (skipn (answer_start_token e) (positions e))) = true)
        by (apply existsb_exists; exists t; split; assumption).
      congruence.
  - intros (p & Hp & Hw & Ha) Hnil.
    pose proof (@SpanBuilderMore.build_spans_nil_quiet _ _ _ Hnil (row 0 p))
      as Hq.
    assert (Hin : In (row 0 p)
                     (map (row 0) (skipn (answer_start_token e) (positions e))))
      by (apply in_map; exact Hp).
    specialize (Hq Hin). unfold hallucinated_token, eligible in Hq. cbn in Hq.
    apply Z.eqb_neq in Hw. rewrite Hw, Ha in Hq. discriminate.
Qed.

(** *** Bounds on the character-level metrics *)

Lemma le_trans_sorted : forall x y z : Z, x <= y -> y <= z -> x <= z.
Proof. intros; lia. Qed.

Lemma overlap_one_pred (p : span) (golds : list gold_span) :
  forall lo,
    StronglySorted Z.le (lo :: gold_bounds golds) ->
    sum_Z (map (fun g => pair_overlap (p, g)) golds)
    <= Z.max 0 (span_end p - Z.max (span_start p) lo).
Proof.
  induction golds as [| g golds IH]; intros lo H; simpl.
  - lia.
  - apply StronglySorted_inv in H. destruct H as [H Hlo].
    simpl in H. apply StronglySorted_inv in H. destruct H as [H Hgs].
    inversion Hlo as [| ? ? Hlo1 _]. inversion Hgs as [| ? ? Hgs1 _].
    specialize (IH (gold_end g) H).
    unfold pair_overlap at 1. simpl. lia.
Qed.

Lemma overlap_one_gold (g : gold_span) (preds : list span) :
  forall lo,
    StronglySorted Z.le (lo :: bounds preds) ->
    sum_Z (map (fun p => pair_overlap (p, g)) preds)
    <= Z.max 0 (gold_end g - Z.max (gold_start g) lo).
Proof.
  induction preds as [| p preds IH]; intros lo H; simpl.
  - lia.
  - apply StronglySorted_inv in H. destruct H as [H Hlo].
    simpl in H. apply StronglySorted_inv in H. destruct H as [H Hps].
    inversion Hlo as [| ? ? Hlo1 _]. inversion Hps as [| ? ? Hps1 _].
    specialize (IH (span_end p) H).
    unfold pair_overlap at 1. simpl. lia.
Qed.

Lemma sorted_dup_head (x : Z) (l : list Z) :
  StronglySorted Z.le (x :: l) -> StronglySorted Z.le (x :: x :: l).
Proof.
  intros H. constructor; [exact H |].
  constructor; [lia |]. apply StronglySorted_inv in H. tauto.
Qed.

Lemma pred_overlap_bounded (p : span) (golds : list gold_span) :
  ordered_golds golds -> wf_span p ->
  sum_Z (map (fun g => pair_overlap (p, g)) golds) <= span_end p - span_start p.
Proof.
  intros Ho Hw. unfold wf_span in Hw.
  apply Sorted_StronglySorted in Ho; [| exact le_trans_sorted].
  destruct golds as [| g golds]; [simpl; lia |].
  pose proof (overlap_one_pred p (g :: golds) (lo := gold_start g)
                (sorted_dup_head Ho)) as H.
  lia.
Qed.

Lemma gold_overlap_bounded (g : gold_span) (preds : list span) :
  ordered_spans preds -> wf_gold g ->
  sum_Z (map (fun p => pair_overlap (p, g)) preds) <= gold_end g - gold_start g.
Proof.
  intros Ho Hw. unfold wf_gold in Hw.
  apply Sorted_StronglySorted in Ho; [| exact le_trans_sorted].
  destruct preds as [| p preds]; [simpl; lia |].
  pose proof (overlap_one_gold g (p :: preds) (lo := span_start p)
                (sorted_dup_head Ho)) as H.
  lia.
Qed.

Lemma overlap_by_pred (preds : list span) (golds : list gold_span) :
  overlap_of preds golds
  = sum_Z (map (fun p => sum_Z (map (fun g => pair_overlap (p, g)) golds)) preds).
Proof.
  unfold overlap_of. induction preds as [| p preds IH]; simpl; [reflexivity |].
  rewrite map_app, sum_Z_app, map_map, IH. reflexivity.
Qed.

Lemma sum_Z_pointwise {A : Type} (f g : A -> Z) (l : list A) :
  sum_Z (map (fun x => f x + g x) l) = sum_Z (map f l) + sum_Z (map g l).
Proof.
  induction l as [| x l IH]; simpl; [reflexivity | rewrite IH; lia].
Qed.

Lemma overlap_by_gold (preds : list span) (golds : list gold_span) :
  overlap_of preds golds
  = sum_Z (map (fun g => sum_Z (map (fun p => pair_overlap (p, g)) preds)) golds).
Proof.
  rewrite overlap_by_pred. induction preds as [| p preds IH]; simpl.
  - induction golds as [| g golds IHg]; simpl; [reflexivity | lia].
  - rewrite IH, <- sum_Z_pointwise. reflexivity.
Qed.

Lemma sum_Z_le {A : Type} (f g : A -> Z) (l : list A) :
  (forall x, In x l -> f x <= g x) -> sum_Z (map f l) <= sum_Z (map g l).
Proof.
  induction l as [| x l IH]; intros H; simpl; [lia |].
  pose proof (H x (or_introl eq_refl)).
  assert (sum_Z (map f l) <= sum_Z (map g l))
    by (apply IH; intros y Hy; apply H; right; exact Hy).
  lia.
Qed.

Lemma overlap_le_predicted (preds : list span) (golds : list gold_span) :
  ordered_golds golds -> Forall wf_span preds ->
  overlap_of preds golds <= span_lengths preds.
Proof.
  intros Ho Hw. rewrite overlap_by_pred. unfold span_lengths.
  apply sum_Z_le. intros p Hp. apply pred_overlap_bounded; [exact Ho |].
  exact (proj1 (Forall_forall _ _) Hw p Hp).
Qed.

Lemma overlap_le_gold (preds : list span) (golds : list gold_span) :
  ordered_spans preds -> Forall wf_gold golds ->
  overlap_of preds golds <= gold_lengths golds.
Proof.
  intros Ho Hw. rewrite overlap_by_gold. unfold gold_lengths.
  apply sum_Z_le. intros g Hg. apply gold_overlap_bounded; [exact Ho |].
  exact (proj1 (Forall_forall _ _) Hw g Hg).
Qed.

Lemma corpus_overlap_le (bound : list span -> sample -> Z)
    (preds : list (list span)) :
  forall samples,
    (forall l s, In (l, s) (combine preds samples) ->
                 overlap_of l (labels s) <= bound l s) ->
    sum_Z (map (fun ps => overlap_of (fst ps) (labels (snd ps)))
               (combine preds samples))
    <= sum_Z (map (fun ps => bound (fst ps) (snd ps)) (combine preds samples)).
Proof.
  intros samples H. apply sum_Z_le. intros [l s] Hin. apply H. exact Hin.
Qed.

Lemma combine_fst_sum {A B : Type} (f : A -> Z) (l1 : list A) :
  forall l2 : list B,
    List.length l1 = List.length l2 ->
    sum_Z (map (fun ab => f (fst ab)) (combine l1 l2)) = sum_Z (map f l1).
Proof.
  induction l1 as [| a l1 IH]; intros [| b l2] H; simpl in *;
    try discriminate; [reflexivity |].
  rewrite IH by lia. reflexivity.
Qed.

Lemma combine_snd_sum {A B : Type} (f : B -> Z) (l1 : list A) :
  forall l2 : list B,
    List.length l1 = List.length l2 ->
    sum_Z (map (fun ab => f (snd ab)) (combine l1 l2)) = sum_Z (map f l2).
Proof.
  induction l1 as [| a l1 IH]; intros [| b l2] H; simpl in *;
    try discriminate; [reflexivity |].
  rewrite IH by lia. reflexivity.
Qed.

Lemma ratio_at_most_one (a b : Z) :
  a <= b -> 0 < b -> (inject_Z a / inject_Z b <= 1)%Q.
Proof.
  intros Hab Hb. apply Qle_shift_div_r.
  - change 0%Q with (inject_Z 0). rewrite <- Zlt_Qlt. exact Hb.
  - rewrite Qmult_1_l. rewrite <- Zle_Qle. exact Hab.
Qed.

Lemma char_level_result (detector : Detectors.detector answer_arg)
    (samples : list sample) (preds : list (list span)) :
  mapM (char_prediction detector) samples = Ok preds ->
  evaluate_detector_char_level detector samples
  = Ok (char_finalize
          {| total_overlap :=
               sum_Z (map (fun ps => overlap_of (fst ps) (labels (snd ps)))
                          (combine preds samples));
             total_predicted := sum_Z (map span_lengths preds);
             total_gold := sum_Z (map (fun s => gold_lengths (labels s)) samples) |}).
Proof.
  intros H. unfold evaluate_detector_char_level, accumulate_char_level.
  rewrite (accumulate_char_level_from _ _ _ H). reflexivity.
Qed.

(** X15.  Character-level precision never exceeds 1 when the gold spans
    of every sample are listed left to right without overlap and the
    predicted spans satisfy [start <= end]; it is never negative.  (With
    overlapping gold spans the double counting can push it above 1.) *)
Theorem char_precision_between_zero_and_one
    (detector : Detectors.detector answer_arg) (samples : list sample)
    (preds : list (list span)) :
  mapM (char_prediction detector) samples = Ok preds ->
  (forall l, In l preds -> Forall wf_span l) ->
  (forall s, In s samples -> ordered_golds (labels s)) ->
  exists m : char_metrics,
    evaluate_detector_char_level detector samples = Ok m
    /\ (0 <= char_precision m)%Q
    /\ (char_precision m <= 1)%Q.
Proof.
  intros Hp Hw Ho. rewrite (char_level_result _ _ Hp).
  eexists. split; [reflexivity |].
  pose proof (BatchFacts.mapM_length _ _ Hp) as Hlen.
  set (o := sum_Z (map (fun ps => overlap_of (fst ps) (labels (snd ps)))
                       (combine preds samples))).
  assert (Ho0 : 0 <= o).
  { apply sum_Z_nonneg. apply Forall_map. apply Forall_forall.
    intros ps _. apply overlap_nonneg. }
  assert (Hle : o <= sum_Z (map span_lengths preds)).
  { unfold o.
    rewrite <- (combine_fst_sum span_lengths preds samples Hlen).
    apply sum_Z_le. intros [l s] Hin. cbn [fst snd].
    apply overlap_le_predicted.
    - apply Ho. apply (in_combine_r _ _ _ _ Hin).
    - apply Hw. apply (in_combine_l _ _ _ _ Hin). }
  unfold char_finalize. cbn [char_precision total_predicted total_overlap].
  destruct (sum_Z (map span_lengths preds) >? 0) eqn:E.
  - apply Z.gtb_lt in E. split.
    + apply ratio_nonneg; lia.
    + apply ratio_at_most_one; lia.
  - split; [apply Qle_refl | discriminate].
Qed.

Lemma char_precision_between_zero_and_one_witness :
  exists m : char_metrics,
    evaluate_detector_char_level Samples.fixed_detector [Samples.sample_2_8] = Ok m
    /\ (0 <= char_precision m)%Q
    /\ (char_precision m <= 1)%Q.
Proof.
  apply (@char_precision_between_zero_and_one Samples.fixed_detector
           [Samples.sample_2_8] [[Samples.span_0_5]] eq_refl).
  - intros l [<- | []]. repeat constructor. unfold wf_span. simpl. lia.
  - intros s [<- | []]. unfold ordered_golds. simpl.
    repeat (constructor; try lia).
Defined.

(** X16.  Character-level recall never exceeds 1 when the predicted spans
    of every sample are listed left to right without overlap
    ([start_0 <= end_0 <= start_1 <= ...]) and the gold spans satisfy
    [start <= end]; it is never negative.  The order of the predicted
    spans is a hypothesis on what the detector returns. *)
Theorem char_recall_between_zero_and_one
    (detector : Detectors.detector answer_arg) (samples : list sample)
    (preds : list (list span)) :
  mapM (char_prediction detector) samples = Ok preds ->
  (forall l, In l preds -> ordered_spans l) ->
  (forall s, In s samples -> Forall wf_gold (labels s)) ->
  exists m : char_metrics,
    evaluate_detector_char_level detector samples = Ok m
    /\ (0 <= char_recall m)%Q
    /\ (char_recall m <= 1)%Q.
Proof.
  intros Hp Ho Hw. rewrite (char_level_result _ _ Hp).
  eexists. split; [reflexivity |].
  pose proof (BatchFacts.mapM_length _ _ Hp) as Hlen.
  set (o := sum_Z (map (fun ps => overlap_of (fst ps) (labels (snd ps)))
                       (combine preds samples))).
  assert (Ho0 : 0 <= o).
  { apply sum_Z_nonneg. apply Forall_map. apply Forall_forall.
    intros ps _. apply overlap_nonneg. }
  assert (Hle : o <= sum_Z (map (fun s => gold_lengths (labels s)) samples)).
  { unfold o.
    rewrite <- (combine_snd_sum (fun s => gold_lengths (labels s)) preds samples Hlen).
    apply sum_Z_le. intros [l s] Hin. cbn [fst snd].
    apply overlap_le_gold.
    - apply Ho. apply (in_combine_l _ _ _ _ Hin).
    - apply Hw. apply (in_combine_r _ _ _ _ Hin). }
  unfold char_finalize. cbn [char_recall total_gold total_overlap].
  destruct (sum_Z (map (fun s => gold_lengths (labels s)) samples) >? 0) eqn:E.
  - apply Z.gtb_lt in E. split.
    + apply ratio_nonneg; lia.
    + apply ratio_at_most_one; lia.
  - split; [apply Qle_refl | discriminate].
Qed.

Lemma char_recall_between_zero_and_one_witness :
  exists m : char_metrics,
    evaluate_detector_char_level Samples.fixed_detector [Samples.sample_twice] = Ok m
    /\ (0 <= char_recall m)%Q
    /\ (char_recall m <= 1)%Q.
Proof.
  apply (@char_recall_between_zero_and_one Samples.fixed_detector
           [Samples.sample_twice] [[Samples.span_0_5]] eq_refl).
  - intros l [<- | []]. unfold ordered_spans. simpl.
    repeat (constructor; try lia).
  - intros s [<- | []]. repeat constructor; unfold wf_gold; simpl; lia.
Defined.

End EvaluatorMore.

(* ===================================================================== *)
(** * Further properties of the batched evaluator *)
(* ===================================================================== *)

Module BatchMore.

Import Detectors Metrics Evaluator BatchFacts.

(** X17.  The batch size is not validated.  A batch size of 0 makes the
    batched evaluator raise [ValueError] (from [range]) on every corpus,
    the empty one included; a negative batch size makes it skip every
    sample without calling the detector, so the metrics are computed on
    empty lists. *)
Theorem batch_size_zero_or_negative (lib : metrics_lib)
    (detector : Detectors.detector answer_arg) (samples : list sample)
    (verbose : bool) :
  accumulate_example_level_batch detector samples 0
  = Err (ValueError "range() arg 3 must not be zero")
  /\ evaluate_detector_example_level_batch lib detector samples 0 verbose
     = Err (ValueError "range() arg 3 must not be zero")
  /\ (forall batch_size,
        batch_size < 0 ->
        accumulate_example_level_batch detector samples batch_size = Ok ([], [])
        /\ evaluate_detector_example_level_batch lib detector samples
                                                 batch_size verbose
           = report_metrics lib (ZD_value 0) (ZD_value 0) [] [] [] verbose).
Proof.
  split; [reflexivity | split; [reflexivity |]].
  intros bs Hb.
  assert (H : accumulate_example_level_batch detector samples bs = Ok ([], [])).
  { unfold accumulate_example_level_batch, range.
    destruct (bs =? 0) eqn:E0; [apply Z.eqb_eq in E0; lia |].
    destruct (0 <? bs) eqn:E1; [apply Z.ltb_lt in E1; lia |].
    destruct (Z.of_nat (List.length samples) <? 0) eqn:E2;
      [apply Z.ltb_lt in E2; lia |].
    reflexivity. }
  split; [exact H |].
  unfold evaluate_detector_example_level_batch. rewrite H. reflexivity.
Qed.

Lemma batch_size_zero_or_negative_witness :
  accumulate_example_level_batch Samples.fixed_detector [Samples.sample_2_8] (-1)
  = Ok ([], []).
Proof.
  destruct (batch_size_zero_or_negative (Sklearn.sklearn Samples.render_stub)
              Samples.fixed_detector [Samples.sample_2_8] false)
    as (_ & _ & Hneg).
  apply (Hneg (-1)). lia.
Defined.

Lemma chunks_concat {A : Type} (xs : list A) (b : nat) (m : nat) :
  forall off : nat,
    List.concat (map (fun k => firstn b (skipn (off + k * b) xs)) (seq 0 m))
    = firstn (m * b) (skipn off xs).
Proof.
  induction m as [| m IH]; intros off.
  - reflexivity.
  - rewrite <- cons_seq, <- seq_shift. rewrite map_cons, map_map.
    cbn [List.concat]. rewrite Nat.mul_0_l, Nat.add_0_r.
    replace (S m * b)%nat with (b + m * b)%nat by lia.
    rewrite firstn_plus, skipn_skipn_add. f_equal.
    rewrite <- (IH (off + b)%nat). f_equal. apply map_ext.
    intros k. f_equal. f_equal. lia.
Qed.

(** X18.  For a batch size of at least 1 the batches partition the
    corpus: the slices [samples[i : i + batch_size]] taken at the start
    indices of the loop, concatenated in order, are the corpus itself, and
    every batch holds between 1 and [batch_size] samples. *)
Theorem batches_partition_corpus (samples : list sample) (batch_size : Z) :
  1 <= batch_size ->
  exists starts : list Z,
    range 0 (Z.of_nat (List.length samples)) batch_size = Ok starts
    /\ List.concat (map (fun i => slice_list samples i (i + batch_size)) starts)
       = samples
    /\ Forall (fun i =>
                 (1 <= List.length (slice_list samples i (i + batch_size)))%nat
                 /\ Z.of_nat (List.length (slice_list samples i (i + batch_size)))
                    <= batch_size)
              starts.
Proof.
  intros Hs.
  remember (Z.to_nat batch_size) as b eqn:Eb.
  assert (Ebs : batch_size = Z.of_nat b) by lia.
  assert (Hpos : (0 < b)%nat) by lia.
  clear Eb. subst batch_size.
  unfold range.
  destruct (Z.of_nat b =? 0) eqn:E0; [apply Z.eqb_eq in E0; lia |].
  destruct (0 <? Z.of_nat b) eqn:E1; [| apply Z.ltb_ge in E1; lia].
  set (n := Z.of_nat (List.length samples)).
  set (len := if 0 <? n then (n - 0 - 1) / Z.of_nat b + 1 else 0).
  assert (Hlen : 0 <= len /\ n <= len * Z.of_nat b
                 /\ (len - 1) * Z.of_nat b < n \/ (len = 0 /\ n = 0)).
  { unfold len. destruct (0 <? n) eqn:En.
    - apply Z.ltb_lt in En. left.
      pose proof (Z.div_pos (n - 0 - 1) (Z.of_nat b) ltac:(lia) ltac:(lia)).
      pose proof (Z.mul_succ_div_gt (n - 0 - 1) (Z.of_nat b) ltac:(lia)).
      pose proof (Z.mul_div_le (n - 0 - 1) (Z.of_nat b) ltac:(lia)).
      split; [lia |]. split; [unfold Z.succ in *; nia | nia].
    - apply Z.ltb_ge in En. right. unfold n in *. lia. }
  eexists. split; [reflexivity |].
  assert (Hstart : forall k : nat,
            slice_list samples (0 + Z.of_nat k * Z.of_nat b)
                       (0 + Z.of_nat k * Z.of_nat b + Z.of_nat b)
            = firstn b (skipn (0 + k * b) samples)).
  { intros k.
    replace (0 + Z.of_nat k * Z.of_nat b) with (Z.of_nat (0 + k * b)) by lia.
    apply slice_chunk. }
  split.
  - rewrite map_map.
    rewrite (map_ext _ (fun k => firstn b (skipn (0 + k * b) samples)) Hstart).
    rewrite chunks_concat. simpl skipn.
    apply firstn_all2. unfold n in Hlen. nia.
  - apply Forall_map. apply Forall_forall. intros k Hk.
    apply in_seq in Hk. rewrite Hstart, length_firstn, length_skipn.
    unfold n in Hlen. split; nia.
Qed.

Lemma batches_partition_corpus_witness :
  exists starts : list Z,
    range 0 3 2 = Ok starts
    /\ List.concat
         (map (fun i => slice_list
                          [Samples.sample_2_8; Samples.sample_twice;
                           Samples.sample_2_8] i (i + 2)) starts)
       = [Samples.sample_2_8; Samples.sample_twice; Samples.sample_2_8].
Proof.
  destruct (@batches_partition_corpus
              [Samples.sample_2_8; Samples.sample_twice; Samples.sample_2_8] 2
              ltac:(lia)) as (starts & Hr & Hc & _).
  exists starts. split; [exact Hr | exact Hc].
Defined.

End BatchMore.

(* ===================================================================== *)
(** * Further properties of the sentence-level evaluator *)
(* ===================================================================== *)

Module SentenceMore.

Import Metrics SentenceModel.

Section Loops.

Variable logit_row : Type.
Variable argmax : logit_row -> Z.
Variable criterion : list logit_row -> list Z -> result Q.

Lemma docs_loop_grows (labels : list (list Z))
    (docs : list (nat * list logit_row)) :
  forall d : doc_state,
    exists ep el : list Z,
      d_preds (fst (docs_loop argmax criterion docs labels d)) = d_preds d ++ ep
      /\ d_labels (fst (docs_loop argmax criterion docs labels d)) = d_labels d ++ el
      /\ List.length ep = List.length el.
Proof.
  induction docs as [| [i logits] docs IH]; intros d.
  - exists [], []. simpl. rewrite !app_nil_r. auto.
  - cbn [docs_loop].
    destruct (nth_error labels i) as [labels_i |]; [| apply IH].
    destruct (Nat.eqb (List.length logits) 0); [apply IH |].
    set (eff := Nat.min (List.length logits) (List.length labels_i)).
    destruct (negb (Nat.eqb (List.length logits) (List.length labels_i))) eqn:Em.
    + destruct (criterion (firstn eff logits) (firstn eff labels_i)) as [l | e].
      * match goal with
        | |- context [docs_loop _ _ _ _ ?d'] =>
            destruct (IH d') as (ep & el & Hp & Hl & Hlen)
        end.
        cbn [d_preds d_labels] in Hp, Hl.
        exists (map argmax (firstn eff logits) ++ ep), (firstn eff labels_i ++ el).
        rewrite Hp, Hl, <- !app_assoc. repeat split.
        rewrite !length_app, length_map, !length_firstn. unfold eff. lia.
      * exists [], []. simpl. rewrite !app_nil_r. auto.
    + apply negb_false_iff in Em. apply Nat.eqb_eq in Em.
      destruct (criterion logits labels_i) as [l | e].
      * match goal with
        | |- context [docs_loop _ _ _ _ ?d'] =>
            destruct (IH d') as (ep & el & Hp & Hl & Hlen)
        end.
        cbn [d_preds d_labels] in Hp, Hl.
        exists (map argmax logits ++ ep), (labels_i ++ el).
        rewrite Hp, Hl, <- !app_assoc. repeat split.
        rewrite !length_app, length_map. lia.
      * exists [], []. simpl. rewrite !app_nil_r. auto.
Qed.

Lemma loader_step_grows (st : state) (b : sbatch logit_row) :
  exists ep el : list Z,
    all_preds (loader_step argmax criterion st b) = all_preds st ++ ep
    /\ all_labels (loader_step argmax criterion st b) = all_labels st ++ el
    /\ List.length ep = List.length el
    /\ step_count st <= step_count (loader_step argmax criterion st b)
       <= step_count st + 1.
Proof.
  unfold loader_step.
  destruct (logits_list b) as [ll | e].
  - match goal with
    | |- context [docs_loop _ _ ?docs ?labels ?d] =>
        destruct (docs_loop_grows labels docs d) as (ep & el & Hp & Hl & Hlen);
        destruct (docs_loop argmax criterion docs labels d) as [d' raised]
    end.
    cbn [fst d_preds d_labels] in Hp, Hl.
    exists ep, el.
    destruct raised; [| destruct (doc_count d' >? 0)];
      cbn [all_preds all_labels step_count]; repeat split; auto; lia.
  - exists [], []. rewrite !app_nil_r. repeat split; lia.
Qed.

Lemma batches_loop_grows (test_loader : list (result (sbatch logit_row))) :
  forall st : state,
    exists ep el : list Z,
      all_preds (batches_loop argmax criterion test_loader st) = all_preds st ++ ep
      /\ all_labels (batches_loop argmax criterion test_loader st)
         = all_labels st ++ el
      /\ List.length ep = List.length el
      /\ step_count st <= step_count (batches_loop argmax criterion test_loader st)
         <= step_count st + Z.of_nat (List.length test_loader).
Proof.
  induction test_loader as [| [b | e] rest IH]; intros st.
  - exists [], []. simpl. rewrite !app_nil_r. repeat split; lia.
  - cbn [batches_loop].
    destruct (loader_step_grows st b) as (ep1 & el1 & Hp1 & Hl1 & Hlen1 & Hs1).
    destruct (IH (loader_step argmax criterion st b))
      as (ep2 & el2 & Hp2 & Hl2 & Hlen2 & Hs2).
    exists (ep1 ++ ep2), (el1 ++ el2).
    rewrite Hp2, Hl2, Hp1, Hl1, <- !app_assoc.
    repeat split; try (rewrite !length_app; lia).
    + lia.
    + cbn [List.length]. lia.
  - exists [], []. simpl. rewrite !app_nil_r. repeat split; lia.
Qed.

End Loops.

(** X19.  Whatever the loader, the model and the loss do, the sentence
    evaluator keeps its two accumulators aligned: after the loop they hold
    equally many predictions and labels (documents whose logits and labels
    differ in length are truncated to the shorter), and the number of
    completed steps lies between 0 and the number of batches. *)
Theorem sentence_accumulators_stay_aligned
    (logit_row : Type) (argmax : logit_row -> Z)
    (criterion : list logit_row -> list Z -> result Q)
    (test_loader : list (result (sbatch logit_row))) :
  List.length (all_preds (batches_loop argmax criterion test_loader initial))
  = List.length (all_labels (batches_loop argmax criterion test_loader initial))
  /\ 0 <= step_count (batches_loop argmax criterion test_loader initial)
     <= Z.of_nat (List.length test_loader).
Proof.
  destruct (batches_loop_grows argmax criterion test_loader initial)
    as (ep & el & Hp & Hl & Hlen & Hs).
  rewrite Hp, Hl. cbn [initial all_preds all_labels step_count] in *.
  simpl. split; [exact Hlen | lia].
Qed.

(** X20.  The sentence evaluator raises only through the final
    [classification_report] call.  With [verbose] off it returns for every
    loader, model, loss and metric library; with [verbose] on it returns
    exactly when no step completed or the report call returns.  Failures
    of the model, the loss, the loader and the metric functions are
    absorbed. *)
Theorem sentence_evaluator_raises_only_in_report
    (logit_row : Type) (argmax : logit_row -> Z)
    (criterion : list logit_row -> list Z -> result Q)
    (lib : metrics_lib) (test_loader : list (result (sbatch logit_row))) :
  (exists r, evaluate_sentence_model argmax criterion lib test_loader false = Ok r)
  /\ ((exists r, evaluate_sentence_model argmax criterion lib test_loader true = Ok r)
      <-> step_count (batches_loop argmax criterion test_loader initial) = 0
          \/ exists txt,
               classification_report lib
                 (all_labels (batches_loop argmax criterion test_loader initial))
                 (all_preds (batches_loop argmax criterion test_loader initial))
                 ZD_warn
               = Ok txt).
Proof.
  unfold evaluate_sentence_model, finalize.
  set (st := batches_loop argmax criterion test_loader initial).
  destruct (step_count st =? 0) eqn:E.
  - split; [eexists; reflexivity |].
    split; [intros _; left; apply Z.eqb_eq; exact E | intros _; eexists; reflexivity].
  - split; [eexists; reflexivity |].
    apply Z.eqb_neq in E.
    destruct (classification_report lib (all_labels st) (all_preds st) ZD_warn)
      as [txt | e]; cbn [bind].
    + split; [intros _; right; exists txt; reflexivity | intros _; eexists; reflexivity].
    + split.
      * intros (r & H). discriminate.
      * intros [H | (txt & H)]; [contradiction | discriminate].
Qed.

End SentenceMore.

(* ===================================================================== *)
(** * Properties of the baseline scripts *)
(* ===================================================================== *)

Module ScriptsFacts.

Import Scripts.

(** *** The resumable loop *)

Lemma saved_count_le (f : Z -> bool) (i : Z) (n : nat) :
  (saved_count f i n <= n)%nat.
Proof.
  induction n as [| n IH]; simpl; [lia |].
  destruct (f (i + Z.of_nat n)); lia.
Qed.

Lemma saved_count_shift (f : Z -> bool) (n : nat) :
  forall i : Z,
    saved_count f i (S n)
    = match saved_count f (i + 1) n with
      | O => if f i then 1%nat else 0%nat
      | S k => S (S k)
      end.
Proof.
  induction n as [| n IH]; intros i.
  - simpl. rewrite Z.add_0_r. reflexivity.
  - change (saved_count f i (S (S n)))
      with (if f (i + Z.of_nat (S n)) then S (S n) else saved_count f i (S n)).
    change (saved_count f (i + 1) (S n))
      with (if f (i + 1 + Z.of_nat n) then S n else saved_count f (i + 1) n).
    replace (i + Z.of_nat (S n)) with (i + 1 + Z.of_nat n) by lia.
    destruct (f (i + 1 + Z.of_nat n)); [reflexivity | apply IH].
Qed.

Lemma saved_count_full (f : Z -> bool) (i : Z) (n : nat) :
  saved_count f i (S n) = S n <-> f (i + Z.of_nat n) = true.
Proof.
  simpl. destruct (f (i + Z.of_nat n)); split; intros H;
    try reflexivity; try discriminate.
  pose proof (saved_count_le f i n). lia.
Qed.

Lemma saved_count_none (f : Z -> bool) (i : Z) (n : nat) :
  (forall k : nat, (k < n)%nat -> f (i + Z.of_nat k) = false) ->
  saved_count f i n = 0%nat.
Proof.
  induction n as [| n IH]; intros H; simpl; [reflexivity |].
  rewrite H by lia. apply IH. intros k Hk. apply H. lia.
Qed.

Section Loop.

Variables A B : Type.
Variable create : A -> result B.
Variable save_now : Z -> bool.

(** A run in which every sample is created: the memory gains the created
    samples, and the file holds the memory as of the last index at which
    the test held. *)
Lemma loop_all_created (items : list A) :
  forall (outs : list B) (i : Z) (st : run_state B),
    mapM create items = Ok outs ->
    baseline_loop create save_now items i st
    = ({| in_memory := in_memory st ++ outs;
          on_disk :=
            match saved_count save_now i (List.length items) with
            | O => on_disk st
            | S k => Some (Ok (in_memory st ++ firstn (S k) outs))
            end |},
       None).
Proof.
  induction items as [| x items IH]; intros outs i st H.
  - simpl in H. inversion H. simpl. rewrite app_nil_r. destruct st; reflexivity.
  - cbn [mapM] in H. cbn [baseline_loop].
    destruct (create x) as [y | e]; cbn [bind] in H; [| discriminate].
    destruct (mapM create items) as [ys | e] eqn:E; cbn [bind] in H;
      [| discriminate].
    inversion H; subst outs. rewrite (IH ys _ _ eq_refl).
    cbn [in_memory on_disk List.length]. rewrite saved_count_shift.
    rewrite <- app_assoc. cbn [app]. f_equal. f_equal.
    destruct (saved_count save_now (i + 1) (List.length items)) as [| k].
    + destruct (save_now i); reflexivity.
    + rewrite <- app_assoc. reflexivity.
Qed.

(** A run that fails at some sample stops there: nothing after the failing
    sample is created. *)
Lemma loop_stops_at_failure (before : list A) (x : A) (after : list A) (e : exn) :
  forall (outs : list B) (i : Z) (st : run_state B),
    mapM create before = Ok outs ->
    create x = Err e ->
    baseline_loop create save_now (before ++ x :: after) i st
    = (fst (baseline_loop create save_now before i st), Some e).
Proof.
  induction before as [| y before IH]; intros outs i st H He.
  - simpl. rewrite He. reflexivity.
  - cbn [mapM] in H. cbn [baseline_loop app].
    destruct (create y) as [z | e']; cbn [bind] in H; [| discriminate].
    destruct (mapM create before) as [zs | e'] eqn:E; cbn [bind] in H;
      [| discriminate].
    apply (IH zs); [reflexivity | exact He].
Qed.

End Loop.

Lemma load_existing_cases {B : Type} (output_file : disk B) (existing : list B) :
  load_check_existing_data output_file = Ok existing ->
  output_file = Some (Ok existing) \/ (existing = [] /\ output_file <> Some (Ok [])
                                       /\ forall l, output_file <> Some (Ok l)).
Proof.
  unfold load_check_existing_data.
  destruct output_file as [[l | e] |]; intros H.
  - inversion H. left. reflexivity.
  - right. destruct e; inversion H; repeat split; discriminate.
  - inversion H. right. repeat split; discriminate.
Qed.

(** After a run in which every sample is created, the file holds all the
    samples in memory exactly when the test held at the last index. *)
Lemma disk_complete_iff {A B : Type} (create : A -> result B)
    (save_now : Z -> bool) (items : list A) (outs existing : list B)
    (output_file : disk B) (i : Z) :
  load_check_existing_data output_file = Ok existing ->
  mapM create items = Ok outs ->
  items <> [] ->
  let final :=
    fst (baseline_loop create save_now items i
           {| in_memory := existing; on_disk := output_file |}) in
  in_memory final = existing ++ outs
  /\ (on_disk final = Some (Ok (in_memory final))
      <-> save_now (i + Z.of_nat (List.length items) - 1) = true).
Proof.
  intros Hload Hm Hne final. unfold final.
  rewrite (loop_all_created create save_now items i _ Hm).
  cbn [fst in_memory on_disk].
  split; [reflexivity |].
  pose proof (BatchFacts.mapM_length _ _ Hm) as Hlen.
  destruct items as [| x items]; [contradiction |].
  cbn [List.length] in *.
  replace (i + Z.of_nat (S (List.length items)) - 1)
    with (i + Z.of_nat (List.length items)) by lia.
  rewrite <- saved_count_full.
  pose proof (saved_count_le save_now i (S (List.length items))) as Hle.
  destruct (saved_count save_now i (S (List.length items))) as [| k] eqn:Ek.
  - split; [| discriminate].
    intros H. exfalso.
    destruct (load_existing_cases _ Hload) as [-> | (_ & _ & Hno)].
    + inversion H as [H']. rewrite <- (app_nil_r existing) in H' at 1.
      apply app_inv_head in H'. subst outs. discriminate.
    + exact (Hno _ H).
  - split.
    + intros H.
      assert (H' : existing ++ firstn (S k) outs = existing ++ outs)
        by congruence.
      apply app_inv_head in H'.
      apply (f_equal (@List.length B)) in H'.
      rewrite length_firstn in H'. lia.
    + intros H. rewrite (firstn_all2 (n := S k) outs) by lia. reflexivity.
Qed.

(** X21.  [main] of [chatgpt_baseline.py], in a run where every sample is
    created.  Every test sample is processed again from the first one: the
    count of samples already in the file only shifts the numbering, so the
    memory ends as the existing samples followed by one new sample per test
    sample.  The test [i == total_samples - 1] never holds, so the file is
    written exactly at the indices divisible by 10, and it ends up holding
    everything in memory exactly when the last index is divisible by 10. *)
Theorem chatgpt_main_writes_only_at_multiples_of_ten
    {A B : Type} (create : A -> result B) (test_samples : list A)
    (output_file : disk B) (existing outs : list B) :
  load_check_existing_data output_file = Ok existing ->
  mapM create test_samples = Ok outs ->
  exists final : run_state B,
    chatgpt_main create test_samples output_file = Ok (final, None)
    /\ in_memory final = existing ++ outs
    /\ (forall k : nat,
          chatgpt_save_now (Z.of_nat (List.length existing))
                           (Z.of_nat (List.length existing) + Z.of_nat k)
          = ((Z.of_nat (List.length existing) + Z.of_nat k) mod 10 =? 0))
    /\ (test_samples <> [] ->
        (on_disk final = Some (Ok (in_memory final))
         <-> (Z.of_nat (List.length existing)
              + Z.of_nat (List.length test_samples) - 1) mod 10 = 0)).
Proof.
  intros Hload Hm.
  assert (Hnever : forall k : nat,
            chatgpt_save_now (Z.of_nat (List.length existing))
                             (Z.of_nat (List.length existing) + Z.of_nat k)
            = ((Z.of_nat (List.length existing) + Z.of_nat k) mod 10 =? 0)).
  { intros k. unfold chatgpt_save_now.
    replace (Z.of_nat (List.length existing) + Z.of_nat k
             =? Z.of_nat (List.length existing) - 1) with false
      by (symmetry; apply Z.eqb_neq; lia).
    apply orb_false_r. }
  unfold chatgpt_main. rewrite Hload. cbn [bind].
  rewrite (loop_all_created create _ test_samples _ _ Hm).
  eexists. split; [reflexivity |]. split; [reflexivity |].
  split; [exact Hnever |].
  intros Hne.
  destruct (@disk_complete_iff A B create
              (chatgpt_save_now (Z.of_nat (List.length existing)))
              test_samples outs existing output_file
              (Z.of_nat (List.length existing)) Hload Hm Hne) as [_ Hiff].
  rewrite (loop_all_created create _ test_samples _ _ Hm) in Hiff.
  cbn [fst in_memory on_disk] in Hiff |- *. rewrite Hiff.
  destruct test_samples as [| x l]; [contradiction |].
  cbn [List.length].
  replace (Z.of_nat (List.length existing) + Z.of_nat (S (List.length l)) - 1)
    with (Z.of_nat (List.length existing) + Z.of_nat (List.length l)) by lia.
  rewrite Hnever. apply Z.eqb_eq.
Qed.

Lemma chatgpt_main_writes_only_at_multiples_of_ten_witness :
  exists final : run_state Z,
    chatgpt_main (fun x : Z => Ok (x + 100)) [1; 2] (Some (Ok [7])) = Ok (final, None)
    /\ in_memory final = [7; 101; 102]
    /\ on_disk final = Some (Ok [7]).
Proof.
  destruct (@chatgpt_main_writes_only_at_multiples_of_ten Z Z
              (fun x : Z => Ok (x + 100)) [1; 2] (Some (Ok [7])) [7] [101; 102]
              eq_refl eq_refl) as (final & Hrun & Hmem & _ & _).
  exists final. split; [exact Hrun |]. split; [exact Hmem |].
  inversion Hrun. reflexivity.
Defined.

(** X22.  [main] of [ragas_baseline.py], with a key in the environment
    and every sample created.  Only [samples[num_processed:]] are
    processed.  The test [(i + 1) == total_samples] never holds, so the
    file is written exactly when [i + 1] is divisible by 50, and it ends up
    holding everything in memory exactly when the final count of samples
    is divisible by 50. *)
Theorem ragas_main_writes_only_at_multiples_of_fifty
    {A B : Type} (env : option string) (key : string)
    (create : A -> result B) (samples : list A)
    (output_file : disk B) (existing outs : list B) :
  load_check_existing_data output_file = Ok existing ->
  get_api_key env = Ok key ->
  mapM create (skipn (List.length existing) samples) = Ok outs ->
  exists final : run_state B,
    ragas_main env create samples output_file = Ok (final, None)
    /\ in_memory final = existing ++ outs
    /\ (forall k : nat,
          ragas_save_now (Z.of_nat (List.length existing))
                         (Z.of_nat (List.length existing) + Z.of_nat k)
          = ((Z.of_nat (List.length existing) + Z.of_nat k + 1) mod 50 =? 0))
    /\ (skipn (List.length existing) samples <> [] ->
        (on_disk final = Some (Ok (in_memory final))
         <-> Z.of_nat (List.length (in_memory final)) mod 50 = 0)).
Proof.
  intros Hload Hkey Hm.
  assert (Hnever : forall k : nat,
            ragas_save_now (Z.of_nat (List.length existing))
                           (Z.of_nat (List.length existing) + Z.of_nat k)
            = ((Z.of_nat (List.length existing) + Z.of_nat k + 1) mod 50 =? 0)).
  { intros k. unfold ragas_save_now.
    replace (Z.of_nat (List.length existing) + Z.of_nat k + 1
             =? Z.of_nat (List.length existing)) with false
      by (symmetry; apply Z.eqb_neq; lia).
    apply orb_false_r. }
  unfold ragas_main. rewrite Hload. cbn [bind]. rewrite Hkey. cbn [bind].
  rewrite (loop_all_created create _ _ _ _ Hm).
  eexists. split; [reflexivity |]. split; [reflexivity |].
  split; [exact Hnever |].
  intros Hne.
  destruct (@disk_complete_iff A B create
              (ragas_save_now (Z.of_nat (List.length existing)))
              (skipn (List.length existing) samples) outs existing output_file
              (Z.of_nat (List.length existing)) Hload Hm Hne) as [_ Hiff].
  rewrite (loop_all_created create _ _ _ _ Hm) in Hiff.
  cbn [fst in_memory on_disk] in Hiff |- *. rewrite Hiff.
  pose proof (BatchFacts.mapM_length _ _ Hm) as Hlen.
  destruct (skipn (List.length existing) samples) as [| x l]; [contradiction |].
  cbn [List.length] in *.
  replace (Z.of_nat (List.length existing) + Z.of_nat (S (List.length l)) - 1)
    with (Z.of_nat (List.length existing) + Z.of_nat (List.length l)) by lia.
  rewrite Hnever, length_app, Hlen.
  replace (Z.of_nat (List.length existing + S (List.length l)))
    with (Z.of_nat (List.length existing) + Z.of_nat (List.length l) + 1) by lia.
  apply Z.eqb_eq.
Qed.

Lemma ragas_main_writes_only_at_multiples_of_fifty_witness :
  exists final : run_state Z,
    ragas_main (Some "sk-key"%string) (fun x : Z => Ok (x + 100)) [1; 2; 3]
               (Some (Ok [7])) = Ok (final, None)
    /\ in_memory final = [7; 102; 103].
Proof.
  destruct (@ragas_main_writes_only_at_multiples_of_fifty Z Z
              (Some "sk-key"%string) "sk-key"%string (fun x : Z => Ok (x + 100))
              [1; 2; 3] (Some (Ok [7])) [7] [102; 103]
              eq_refl eq_refl eq_refl) as (final & Hrun & Hmem & _).
  exists final. split; [exact Hrun | exact Hmem].
Defined.

(** X23.  In both scripts an exception while creating a sample ends the
    run at that sample: the samples before it are in memory, nothing after
    it is created, and the file is left as the last write made it, so the
    samples created since then are not on disk. *)
Theorem run_ends_at_first_failure
    {A B : Type} (create : A -> result B) (save_now : Z -> bool)
    (before : list A) (x : A) (after : list A) (e : exn)
    (outs : list B) (i : Z) (st : run_state B) :
  mapM create before = Ok outs ->
  create x = Err e ->
  baseline_loop create save_now (before ++ x :: after) i st
  = ({| in_memory := in_memory st ++ outs;
        on_disk :=
          match saved_count save_now i (List.length before) with
          | O => on_disk st
          | S k => Some (Ok (in_memory st ++ firstn (S k) outs))
          end |},
     Some e).
Proof.
  intros Hm He.
  rewrite (loop_stops_at_failure create save_now before x after i st Hm He).
  rewrite (loop_all_created create save_now before i st Hm). reflexivity.
Qed.

Lemma run_ends_at_first_failure_witness :
  baseline_loop (fun x : Z => if x =? 0 then Err JSONDecodeError else Ok x)
                (chatgpt_save_now 0) [5; 6; 0; 7] 0
                {| in_memory := []; on_disk := None |}
  = ({| in_memory := [5; 6]; on_disk := Some (Ok [5]) |}, Some JSONDecodeError).
Proof.
  apply (@run_ends_at_first_failure Z Z
           (fun x : Z => if x =? 0 then Err JSONDecodeError else Ok x)
           (chatgpt_save_now 0) [5; 6] 0 [7] JSONDecodeError [5; 6] 0
           {| in_memory := []; on_disk := None |}); reflexivity.
Defined.

(** *** The RAGAS labels *)

Lemma threshold_flag_spec (q threshold : Q) :
  (if Qgtb threshold q then 1 else 0) = 1 <-> (q < threshold)%Q.
Proof.
  unfold Qgtb. destruct (Qle_bool threshold q) eqn:E; simpl.
  - apply Qle_bool_iff in E. split; [discriminate |].
    intros H. exfalso. apply (Qlt_not_le _ _ H). exact E.
  - split; [| reflexivity]. intros _.
    destruct (Qlt_le_dec q threshold) as [H | H]; [exact H |].
    apply Qle_bool_iff in H. congruence.
Qed.

(** X24.  A failure of the faithfulness metric is caught by
    [evaluate_metrics] and stored as text, and the comparison of that text
    with the first threshold then raises [TypeError]: the sample is not
    created, whatever the exception was. *)
Theorem ragas_metric_failure_raises_type_error
    (describe : exn -> string) (e : exn) :
  evaluate_metrics describe (Err e) = ErrorText ("Error: " ++ describe e)
  /\ ragas_labels describe (Err e)
     = Err (TypeError "'<' not supported between instances of 'str' and 'float'").
Proof.
  split; reflexivity.
Qed.

(** X25.  For a score that the metric returns, the four threshold flags
    are nested: a sample flagged at a threshold (score below it) is flagged
    at every higher threshold, and each flag is 1 exactly when the score is
    below its threshold. *)
Theorem ragas_threshold_flags_nested (describe : exn -> string) (q : Q) :
  exists f4 f5 f6 f7 : Z,
    ragas_labels describe (Ok q) = Ok (Score q, [f4; f5; f6; f7])
    /\ (f4 = 1 <-> (q < 4 # 10)%Q)
    /\ (f5 = 1 <-> (q < 5 # 10)%Q)
    /\ (f6 = 1 <-> (q < 6 # 10)%Q)
    /\ (f7 = 1 <-> (q < 7 # 10)%Q)
    /\ f4 <= f5 <= f6 /\ f6 <= f7
    /\ 0 <= f4 /\ f7 <= 1.
Proof.
  eexists _, _, _, _. split; [reflexivity |].
  pose proof (threshold_flag_spec q (4 # 10)) as H4.
  pose proof (threshold_flag_spec q (5 # 10)) as H5.
  pose proof (threshold_flag_spec q (6 # 10)) as H6.
  pose proof (threshold_flag_spec q (7 # 10)) as H7.
  repeat (split; [assumption |]).
  assert (L45 : (q < 4 # 10 -> q < 5 # 10)%Q)
    by (intros H; eapply Qlt_trans; [exact H | reflexivity]).
  assert (L56 : (q < 5 # 10 -> q < 6 # 10)%Q)
    by (intros H; eapply Qlt_trans; [exact H | reflexivity]).
  assert (L67 : (q < 6 # 10 -> q < 7 # 10)%Q)
    by (intros H; eapply Qlt_trans; [exact H | reflexivity]).
  destruct (Qgtb (4 # 10) q) eqn:E4; destruct (Qgtb (5 # 10) q) eqn:E5;
    destruct (Qgtb (6 # 10) q) eqn:E6; destruct (Qgtb (7 # 10) q) eqn:E7;
    repeat split; try lia; exfalso;
    try (assert (0 = 1) by (apply H5, L45, H4; reflexivity); lia);
    try (assert (0 = 1) by (apply H6, L56, H5; reflexivity); lia);
    try (assert (0 = 1) by (apply H7, L67, H6; reflexivity); lia).
Qed.

(** X26.  [get_api_key] returns the key exactly when the environment
    variable is set to a non-empty string other than ["EMPTY"]; an unset
    variable, an empty one and the literal ["EMPTY"] all raise
    [ValueError]. *)
Theorem api_key_must_be_set (env : option string) (key : string) :
  get_api_key env = Ok key
  <-> env = Some key /\ key <> ""%string /\ key <> "EMPTY"%string.
Proof.
  unfold get_api_key. split.
  - destruct env as [[| c k] |]; try discriminate.
    destruct (String.eqb (String c k) "EMPTY") eqn:E; [discriminate |].
    intros H. inversion H; subst key. apply String.eqb_neq in E.
    repeat split; [discriminate | exact E].
  - intros (-> & Hne & Hk). destruct key as [| c k]; [contradiction |].
    apply String.eqb_neq in Hk. rewrite Hk. reflexivity.
Qed.

(** *** [split_prompt] *)

Lemma contains_app (c : ascii) (a b : string) :
  LLMLabels.contains_char c (a ++ b)
  = LLMLabels.contains_char c a || LLMLabels.contains_char c b.
Proof.
  induction a as [| d a IH]; simpl; [reflexivity |].
  rewrite IH. apply orb_assoc.
Qed.

Lemma str_split_nonempty (sep : ascii) (s : string) : str_split sep s <> [].
Proof.
  destruct s as [| c s]; simpl; [discriminate |].
  destruct (Ascii.eqb c sep); [discriminate |].
  destruct (str_split sep s); discriminate.
Qed.

(** A string without the separator is one piece. *)
Lemma str_split_none (sep : ascii) (s : string) :
  LLMLabels.contains_char sep s = false -> str_split sep s = [s].
Proof.
  induction s as [| c s IH]; simpl; intros H; [reflexivity |].
  apply orb_false_iff in H. destruct H as [H1 H2].
  rewrite H1, (IH H2). reflexivity.
Qed.

(** The first piece is the text before the first separator. *)
Lemma str_split_app (sep : ascii) (a rest : string) :
  LLMLabels.contains_char sep a = false ->
  str_split sep (a ++ String sep rest) = a :: str_split sep rest.
Proof.
  induction a as [| c a IH]; simpl; intros H.
  - rewrite Ascii.eqb_refl. reflexivity.
  - apply orb_false_iff in H. destruct H as [H1 H2].
    rewrite H1, (IH H2). reflexivity.
Qed.

(** Joining the pieces by the separator gives the string back. *)
Lemma str_join_split (sep : ascii) (s : string) :
  str_join (String sep EmptyString) (str_split sep s) = s.
Proof.
  induction s as [| c s IH]; [reflexivity |].
  cbn [str_split].
  destruct (Ascii.eqb c sep) eqn:E.
  - apply Ascii.eqb_eq in E. subst c.
    pose proof (str_split_nonempty sep s) as Hn.
    destruct (str_split sep s) as [| p ps] eqn:Es; [congruence |].
    cbn [str_join] in *. rewrite IH. reflexivity.
  - pose proof (str_split_nonempty sep s) as Hn.
    destruct (str_split sep s) as [| p ps] eqn:Es; [congruence |].
    cbn [str_join] in *. destruct ps as [| q qs].
    + rewrite IH. reflexivity.
    + simpl. rewrite <- IH. reflexivity.
Qed.

(** X28.  For a ["Summary"] sample whose prompt has a colon, the user
    input is the text before the first colon with a space put between
    every two of its characters (the text is joined as a sequence of
    characters), and the retrieved contexts are the pieces of the rest,
    which joined by colons give back everything after the first colon. *)
Theorem split_prompt_summary_spaces_out_head
    (sample : prompt_sample) (head rest : string) :
  task_type sample = "Summary"%string ->
  prompt sample = (head ++ String ":" rest)%string ->
  LLMLabels.contains_char ":" head = false ->
  exists contexts : list string,
    split_prompt sample
    = (str_join " " (map (fun c => String c EmptyString)
                         (list_ascii_of_string head)),
       AList contexts)
    /\ str_join ":" contexts = rest.
Proof.
  intros Ht Hp Hh. exists (str_split ":" rest).
  split; [| apply str_join_split].
  unfold split_prompt. rewrite Ht, Hp, String.eqb_refl.
  rewrite contains_app. cbn [LLMLabels.contains_char].
  rewrite Ascii.eqb_refl, orb_true_l, orb_true_r.
  rewrite (@str_split_app _ _ _ Hh). reflexivity.
Qed.

Lemma split_prompt_summary_spaces_out_head_witness :
  exists contexts : list string,
    split_prompt (mkPromptSample "Summary" "News: a: b")
    = ("N e w s"%string, AList contexts)
    /\ str_join ":" contexts = " a: b"%string.
Proof.
  apply (@split_prompt_summary_spaces_out_head
           (mkPromptSample "Summary" "News: a: b") "News" " a: b");
    reflexivity.
Defined.

(** X29.  For a sample of another task type whose prompt has at least two
    colons, the user input is the first two pieces joined by one space, and
    the retrieved contexts joined by colons give back everything after the
    second colon. *)
Theorem split_prompt_other_keeps_two_pieces
    (sample : prompt_sample) (first second rest : string) :
  task_type sample <> "Summary"%string ->
  prompt sample = (first ++ String ":" (second ++ String ":" rest))%string ->
  LLMLabels.contains_char ":" first = false ->
  LLMLabels.contains_char ":" second = false ->
  exists contexts : list string,
    split_prompt sample = ((first ++ " " ++ second)%string, AList contexts)
    /\ str_join ":" contexts = rest.
Proof.
  intros Ht Hp H1 H2. exists (str_split ":" rest).
  split; [| apply str_join_split].
  unfold split_prompt. apply String.eqb_neq in Ht. rewrite Ht, Hp.
  rewrite contains_app. cbn [LLMLabels.contains_char].
  rewrite Ascii.eqb_refl, orb_true_l, orb_true_r.
  rewrite (@str_split_app _ _ _ H1), (@str_split_app _ _ _ H2). reflexivity.
Qed.

Lemma split_prompt_other_keeps_two_pieces_witness :
  exists contexts : list string,
    split_prompt (mkPromptSample "QA" "Q:who:ctx:more")
    = ("Q who"%string, AList contexts)
    /\ str_join ":" contexts = "ctx:more"%string.
Proof.
  apply (@split_prompt_other_keeps_two_pieces
           (mkPromptSample "QA" "Q:who:ctx:more") "Q" "who" "ctx:more");
    try reflexivity.
  discriminate.
Defined.

(** X30.  For a sample of another task type whose prompt has exactly one
    colon, both pieces go to the user input and the list of retrieved
    contexts is empty; with no colon at all, for any task type, the
    retrieved contexts are the prompt itself as one string, not a list. *)
Theorem split_prompt_few_colons_leave_no_context_list
    (sample : prompt_sample) :
  (forall first second : string,
      task_type sample <> "Summary"%string ->
      prompt sample = (first ++ String ":" second)%string ->
      LLMLabels.contains_char ":" first = false ->
      LLMLabels.contains_char ":" second = false ->
      split_prompt sample = ((first ++ " " ++ second)%string, AList []))
  /\ (LLMLabels.contains_char ":" (prompt sample) = false ->
      snd (split_prompt sample) = AStr (prompt sample)).
Proof.
  split.
  - intros first second Ht Hp H1 H2.
    unfold split_prompt. apply String.eqb_neq in Ht. rewrite Ht, Hp.
    rewrite contains_app. cbn [LLMLabels.contains_char].
    rewrite Ascii.eqb_refl, orb_true_l, orb_true_r.
    rewrite (@str_split_app _ _ _ H1), (@str_split_none _ _ H2). reflexivity.
  - intros H. unfold split_prompt. rewrite H.
    destruct (String.eqb (task_type sample) "Summary"); reflexivity.
Qed.

Lemma split_prompt_few_colons_leave_no_context_list_witness :
  split_prompt (mkPromptSample "QA" "Q:who")
  = ("Q who"%string, AList [])
  /\ snd (split_prompt (mkPromptSample "QA" "who")) = AStr "who".
Proof.
  destruct (split_prompt_few_colons_leave_no_context_list
              (mkPromptSample "QA" "Q:who")) as [H _].
  split.
  - apply (H "Q"%string "who"%string); try reflexivity. discriminate.
  - apply (proj2 (split_prompt_few_colons_leave_no_context_list
                    (mkPromptSample "QA" "who"))). reflexivity.
Defined.

End ScriptsFacts.
